(** * josestg/josestg: the blog's build-time loaders, markdown pipeline and
      GitHub statistics handlers, embedded in Rocq.

    Sources embedded here:
    - [src/pages/index.tsx]              (index page, [getStaticProps])
    - [src/pages/posts/[slug].tsx]       (post page, [getStaticPaths], [getStaticProps])
    - [src/unnamed/part_001]             (libs/md2html-parser, [parse])
    - [src/pages/api/github/languages.ts] (language statistics and star count handlers)
    - [src/components/stats.tsx]         (the palette of the language panel)
    - types.ts, found at the end of
      [src/content/posts/concurrency-patterns/go-concurrency-patterns-generator.md]

    Conventions.  A JavaScript string is a [string] (a sequence of code
    units).  A call that may throw returns a [result]; an [async] function
    that rejects is a [Throw].  [undefined] is [None]. *)

From Stdlib Require Import String Ascii List ZArith QArith Bool Lia Lqa.
From Stdlib Require Import Permutation Sorted.
From stdpp Require Import gmap strings.
Import ListNotations.

Local Open Scope string_scope.
Local Open Scope list_scope.

(** * Part I: the program *)

(** ** Exceptions *)

Module Result.

(** A JavaScript exception value; only its presence matters here. *)
Inductive exn := Error (message : string).

Inductive result (A : Type) :=
| Ok (a : A)
| Throw (e : exn).
Arguments Ok {A} a.
Arguments Throw {A} e.

Definition bind {A B} (r : result A) (k : A -> result B) : result B :=
  match r with
  | Ok a => k a
  | Throw e => Throw e
  end.

(** [Array.prototype.map] with a callback that may throw: elements are
    visited left to right and the first exception aborts the whole call. *)
Fixpoint mapM {A B} (f : A -> result B) (l : list A) : result (list B) :=
  match l with
  | [] => Ok []
  | x :: l' =>
      bind (f x) (fun y => bind (mapM f l') (fun ys => Ok (y :: ys)))
  end.

Definition throws {A} (r : result A) : Prop := exists e, r = Throw e.

Definition returns {A} (r : result A) : Prop := exists a, r = Ok a.

End Result.
Import Result.

(** The sequencing notation [x ← r; k] of the rest of the file. *)
#[global] Instance result_mbind : MBind result := fun A B k r => Result.bind r k.
#[global] Instance result_mret : MRet result := fun A a => Ok a.

(** ** [String.prototype] methods used by the pages *)

Module JsString.

Fixpoint drop (n : nat) (s : string) : string :=
  match n, s with
  | O, _ => s
  | S _, EmptyString => EmptyString
  | S n', String _ s' => drop n' s'
  end.

(** [s.includes(pat)] *)
Fixpoint includes (pat s : string) : bool :=
  if String.prefix pat s then true
  else match s with
       | EmptyString => false
       | String _ s' => includes pat s'
       end.

(** [s.replace(pat, rep)] for a string [pat]: only the first occurrence
    of [pat] (the leftmost one) is replaced; without an occurrence [s] is
    returned unchanged.  [rep] is taken literally, which is exact for a
    replacement without [$]. *)
Fixpoint replace (pat rep s : string) : string :=
  if String.prefix pat s then rep ++ drop (String.length pat) s
  else match s with
       | EmptyString => EmptyString
       | String c s' => String c (replace pat rep s')
       end.

End JsString.

(** ** Slug derivation (index.tsx line 58, [slug].tsx line 94) *)

(** [filename.replace(".md", "")] *)
Definition slugOf (filename : string) : string :=
  JsString.replace ".md" "" filename.

(** ** The markdown renderer (libs/md2html-parser, src/unnamed/part_001) *)

Module Unified.

(** The ten plugins the module imports. *)
Inductive plugin :=
| remark          (* remark-parse *)
| gfm             (* remark-gfm *)
| math            (* remark-math *)
| remark2rehype   (* remark-rehype *)
| prism           (* mdx-prism *)
| figure          (* rehype-figure *)
| katex           (* rehype-katex *)
| raw             (* rehype-raw *)
| minify          (* rehype-minify-whitespace *)
| stringify.      (* rehype-stringify *)

(** An options object with boolean entries, such as
    [{ strict: false, colorIsTextColor: true }]. *)
Definition options := list (string * bool).

(** A processor: the [settings] it has collected and the plugins attached
    to it, in the order of attachment. *)
Record processor := {
  settings : options;
  attachers : list (plugin * options)
}.

(** [unified()] *)
Definition unified : processor := {| settings := []; attachers := [] |}.

(** [.use({ settings: s })]: a preset that only carries settings. *)
Definition use_settings (s : options) (p : processor) : processor :=
  {| settings := settings p ++ s; attachers := attachers p |}.

(** [.use(plugin, options)] with a plugin that is not attached yet, which
    is the case of each of the ten calls below: the plugin goes to the end
    of the list. *)
Definition use (pl : plugin) (o : options) (p : processor) : processor :=
  {| settings := settings p; attachers := attachers p ++ [(pl, o)] |}.

(** The chain of [parse], lines 15 to 26, read top to bottom. *)
Definition parse_processor : processor :=
  use stringify []
    (use minify []
      (use raw []
        (use katex [("strict", false); ("colorIsTextColor", true)]
          (use figure []
            (use prism []
              (use remark2rehype []
                (use math []
                  (use gfm []
                    (use remark []
                      (use_settings [("position", false)] unified)))))))))).

(** What the plugins do is the business of their packages, which are not
    part of the repository: the section takes it as given.  Attaching a
    plugin may configure the processor (install the parser or the
    compiler, extend the parser's syntax) and may contribute one tree
    transformer. *)
Section Run.

Variable node : Type.

Record config := {
  Parser : option (string -> result node);
  Compiler : option (node -> result string)
}.

Variable attach :
  options -> plugin -> options -> config -> config * option (node -> result node).

(** Freezing calls every attacher once, in order. *)
Fixpoint freeze (s : options) (l : list (plugin * options)) (c : config)
  : config * list (node -> result node) :=
  match l with
  | [] => (c, [])
  | (pl, o) :: l' =>
      let '(c1, t) := attach s pl o c in
      let '(c2, ts) := freeze s l' c1 in
      (c2, match t with Some f => f :: ts | None => ts end)
  end.

Fixpoint run (ts : list (node -> result node)) (tree : node) : result node :=
  match ts with
  | [] => Ok tree
  | t :: ts' => tree' ← t tree; run ts' tree'
  end.

(** [.processSync(md).toString()] *)
Definition processSync (p : processor) (md : string) : result string :=
  let '(c, ts) := freeze (settings p) (attachers p)
                    {| Parser := None; Compiler := None |} in
  match Parser c, Compiler c with
  | Some parser, Some compiler =>
      tree ← parser md; tree' ← run ts tree; compiler tree'
  | None, _ => Throw (Error "Cannot `processSync` without `Parser`")
  | _, None => Throw (Error "Cannot `processSync` without `Compiler`")
  end.

Definition parse (md : string) : result string :=
  processSync parse_processor md.

End Run.

(** The pipeline as section 4.1 of the specification words it, step by
    step: parse markdown, GFM extensions, math-expression extension,
    conversion to an HTML-like tree, syntax highlighting, figures, raw HTML,
    whitespace, serialization. *)
Definition spec_pipeline : list plugin :=
  [remark; gfm; math; remark2rehype; prism; figure; raw; minify; stringify].

(** A processor with those nine steps and the settings of [parse]. *)
Definition spec_processor : processor :=
  {| settings := [("position", false)];
     attachers := List.map (fun pl => (pl, [])) spec_pipeline |}.

(** The part each package plays: remark-parse installs the parser,
    remark-gfm and remark-math extend the syntax of the parser that is
    installed, rehype-stringify installs the compiler, and each of the six
    others contributes one transformer.  What the parser, an extension, a
    transformer and the compiler compute is left open. *)
Definition wired {node : Type}
    (parser : options -> string -> result node)
    (extend : plugin -> (string -> result node) -> string -> result node)
    (transformer : plugin -> options -> node -> result node)
    (compiler : node -> result string)
    (s : options) (pl : plugin) (o : options) (c : config node)
  : config node * option (node -> result node) :=
  match pl with
  | remark =>
      ({| Parser := Some (parser s); Compiler := Compiler node c |}, None)
  | gfm | math =>
      ({| Parser := option_map (extend pl) (Parser node c);
          Compiler := Compiler node c |}, None)
  | stringify =>
      ({| Parser := Parser node c; Compiler := Some compiler |}, None)
  | remark2rehype | prism | figure | katex | raw | minify =>
      (c, Some (transformer pl o))
  end.

End Unified.

(** ** The content loaders (pages/index.tsx, pages/posts/[slug].tsx) *)

Module Content.

(** A value of the front-matter object that gray-matter hands back. *)
#[warnings="-register-all"]
Inductive value :=
| VStr (s : string)
| VBool (b : bool)
| VNum (n : Z)
| VNull
| VDate (iso : string)
| VList (l : list value).

(** [ContentMetadata]: a field read off the front-matter object is
    whatever was found under that key, [None] standing for [undefined].
    None of the five keys is a name that objects inherit, so reading one
    is a lookup among the parsed entries. *)
Record ContentMetadata := {
  title : option value;
  slug : string;
  readTime : string;
  dateCreated : option value;
  categories : option value;
  intro : option value;
  useLatex : option value
}.

Record ParsedMarkdown := {
  metadata : ContentMetadata;
  htmlString : string
}.

(** The part of the result of [countReadingTime] that the pages use. *)
Record ReadTimeResults := { text : string }.

(** What the loaders call and the repository does not define: the file
    system of the build machine, [path.join], gray-matter, reading-time,
    the directory [path.join(process.cwd(), CONTENTS_DIRNAME)], and the
    packages behind the renderer (their trees and what attaching each of
    them does).  [grayMatter] is what gray-matter makes of a text it parses;
    the cache it keeps across the calls of one process is the matter of
    the module [Cached] below. *)
Record Env := {
  contentDir : string;
  path_join : string -> string -> string;
  readdirSync : string -> result (list string);
  readFileSync : string -> result string;
  grayMatter : string -> result (gmap string value * string);
  countReadingTime : string -> result ReadTimeResults;
  node : Type;
  attach : Unified.options -> Unified.plugin -> Unified.options ->
           Unified.config node ->
           Unified.config node * option (node -> result node)
}.

(** [import makrdown2Html from "../../libs/md2html-parser"]: the renderer
    of the previous section under the name the post page gives it. *)
Definition makrdown2Html (E : Env) (md : string) : result string :=
  Unified.parse (node E) (attach E) md.

Section Loaders.

Variable E : Env.

(** index.tsx, lines 43 to 63: the callback of [.map]. *)
Definition index_entry (filename : string) : result ContentMetadata :=
  rawMarkdown ← readFileSync E (path_join E (contentDir E) filename);
  '(markdownMetadata, content) ← grayMatter E rawMarkdown;
  readingTime ← countReadingTime E content;
  mret {| title := markdownMetadata !! "title";
          categories := markdownMetadata !! "categories";
          dateCreated := markdownMetadata !! "dateCreated";
          intro := markdownMetadata !! "intro";
          useLatex := markdownMetadata !! "useLatex";
          slug := slugOf filename;
          readTime := text readingTime |}.

(** index.tsx, [getStaticProps]: the [data] of the returned props. *)
Definition index_getStaticProps : result (list ContentMetadata) :=
  filenames ← readdirSync E (contentDir E);
  mapM index_entry filenames.

(** [slug].tsx, [getStaticPaths]: the [slug] of every path. *)
Definition getStaticPaths : result (list string) :=
  filenames ← readdirSync E (contentDir E);
  mret (List.map slugOf filenames).

(** [slug].tsx, [getStaticProps], for [ctx.params.slug]. *)
Definition post_getStaticProps (slug : string) : result ParsedMarkdown :=
  rawMarkdown ← readFileSync E (path_join E (contentDir E) (slug ++ ".md"));
  '(markdownMetadata, content) ← grayMatter E rawMarkdown;
  readingTime ← countReadingTime E content;
  let metadata :=
    {| slug := slug;
       readTime := text readingTime;
       intro := markdownMetadata !! "intro";
       title := markdownMetadata !! "title";
       useLatex := markdownMetadata !! "useLatex";
       categories := markdownMetadata !! "categories";
       dateCreated := markdownMetadata !! "dateCreated" |} in
  htmlString ← makrdown2Html E content;
  mret {| metadata := metadata; htmlString := htmlString |}.

End Loaders.

(** The five keys of the front-matter schema. *)
Definition schema_fields : list string :=
  ["title"; "dateCreated"; "intro"; "categories"; "useLatex"].

(** The field of a [ContentMetadata] that a schema key fills. *)
Definition field (key : string) (m : ContentMetadata) : option value :=
  if String.eqb key "title" then title m
  else if String.eqb key "dateCreated" then dateCreated m
  else if String.eqb key "intro" then intro m
  else if String.eqb key "categories" then categories m
  else if String.eqb key "useLatex" then useLatex m
  else None.

Definition is_string (v : value) : bool :=
  match v with VStr _ => true | _ => false end.

(** The shape types.ts declares for the five fields that come from the
    front-matter: [title: string], [dateCreated: string], [intro: string],
    [categories: string[]], [useLatex: boolean].  The declaration is a
    compile-time annotation; nothing checks it when a file is loaded. *)
Definition well_formed (key : string) (v : value) : bool :=
  if String.eqb key "categories" then
    match v with VList l => forallb is_string l | _ => false end
  else if String.eqb key "useLatex" then
    match v with VBool _ => true | _ => false end
  else is_string v.

End Content.

(** ** gray-matter's cache *)

Module Cached.
Import Content.









End Cached.

(** ** Plain objects used as dictionaries *)

Module JsObject.

(** The properties every object literal inherits from [Object.prototype]:
    eleven methods and the accessor [__proto__]. *)
Definition Object_prototype : list string :=
  ["constructor"; "__defineGetter__"; "__defineSetter__"; "hasOwnProperty";
   "__lookupGetter__"; "__lookupSetter__"; "isPrototypeOf";
   "propertyIsEnumerable"; "toString"; "valueOf"; "__proto__";
   "toLocaleString"].

Definition inherited (key : string) : bool :=
  existsb (String.eqb key) Object_prototype.

(** The values the handler stores in its accumulator.  Numbers are exact
    rationals: rounding is not modelled.  [PText k xs] is the text that
    [+=] builds when the property was not a number to begin with: the
    string form of [Object.prototype[k]] followed by the decimal forms of
    the numbers [xs], in that order. *)
Inductive pval :=
| PNum (x : Q)
| PNaN
| PText (k : string) (xs : list Q).

(** The own properties of an object, in order of creation. *)
Definition obj := list (string * pval).

Definition is_number (v : pval) : Prop := exists x, v = PNum x.

(** Every own property holds a number. *)
Definition all_numbers (o : obj) : Prop := Forall (fun kv => is_number (snd kv)) o.

Fixpoint get_own (o : obj) (key : string) : option pval :=
  match o with
  | [] => None
  | (k, v) :: o' => if String.eqb k key then Some v else get_own o' key
  end.

(** The outcome of [o[key]]. *)
Inductive lookup_result :=
| Own (v : pval)
| Inherited          (* a function, or the prototype itself for [__proto__] *)
| Undefined.

Definition get (o : obj) (key : string) : lookup_result :=
  match get_own o key with
  | Some v => Own v
  | None => if inherited key then Inherited else Undefined
  end.

Fixpoint update (o : obj) (key : string) (v : pval) : obj :=
  match o with
  | [] => []
  | (k, w) :: o' =>
      if String.eqb k key then (k, v) :: o' else (k, w) :: update o' key v
  end.

(** [o[key] = v] for a primitive [v].  Assigning to [__proto__] runs the
    inherited setter, which ignores a value that is not an object; any
    other key becomes or stays an own property. *)
Definition set (o : obj) (key : string) (v : pval) : obj :=
  if String.eqb key "__proto__" then o
  else match get_own o key with
       | Some _ => update o key v
       | None => o ++ [(key, v)]
       end.

(** [x + c] for a number [c]. *)
Definition plus (x : lookup_result) (key : string) (c : Q) : pval :=
  match x with
  | Own (PNum a) => PNum (a + c)
  | Own PNaN => PNaN
  | Own (PText k xs) => PText k (xs ++ [c])
  | Inherited => PText key [c]
  | Undefined => PNaN
  end.

(** *** [Object.keys]: array indices in ascending order, then the other
    keys in order of creation. *)

Definition digit (c : ascii) : option N :=
  let n := N_of_ascii c in
  if ((48 <=? n) && (n <=? 57))%N then Some (n - 48)%N else None.

Fixpoint decimal (s : string) (acc : N) : option N :=
  match s with
  | EmptyString => Some acc
  | String c s' =>
      match digit c with
      | Some d => decimal s' (10 * acc + d)%N
      | None => None
      end
  end.

(** A canonical numeric string below 2^32 - 1. *)
Definition array_index (s : string) : option N :=
  match s with
  | EmptyString => None
  | String c s' =>
      if Ascii.eqb c "0" && negb (String.eqb s' "") then None
      else match decimal s 0 with
           | Some n => if (n <? 4294967295)%N then Some n else None
           | None => None
           end
  end.

Fixpoint insert_index (x : N * string) (l : list (N * string)) : list (N * string) :=
  match l with
  | [] => [x]
  | y :: l' => if (fst x <=? fst y)%N then x :: l else y :: insert_index x l'
  end.

Fixpoint split_keys (ks : list string) : list (N * string) * list string :=
  match ks with
  | [] => ([], [])
  | k :: ks' =>
      let '(idx, others) := split_keys ks' in
      match array_index k with
      | Some n => (insert_index (n, k) idx, others)
      | None => (idx, k :: others)
      end
  end.

Definition keys (o : obj) : list string :=
  let '(idx, others) := split_keys (List.map fst o) in
  List.map snd idx ++ others.

End JsObject.

(** ** The statistics handlers (pages/api/github) *)

Module Github.
Import JsObject.

(** [GithubRepository] of types.ts: [fork: boolean], [language: string],
    [stargazers_count: number].  The upstream answer is not validated:
    GitHub reports [language: null] for a repository without detected
    code, hence the option.  A star count is taken as an integer; sums of
    integers are what doubles compute as long as they stay within 2^53. *)
Record GithubRepository := {
  fork : bool;
  language : option string;
  stargazers_count : Z
}.

(** languages.ts, lines 5 to 9.  [null] is none of the three names. *)
Definition isExcludedLanguage (language : option string) : bool :=
  match language with
  | Some l =>
      String.eqb l "HTML" || String.eqb l "CSS" || String.eqb l "Jupyter Notebook"
  | None => false
  end.

(** A property key made of a language: [null] becomes the key ["null"]. *)
Definition property_key (language : option string) : string :=
  match language with
  | Some l => l
  | None => "null"
  end.

(** Lines 20 to 25: [filter] then [map]. *)
Definition languages_of (repositories : list GithubRepository)
  : list (option string) :=
  List.map language
    (List.filter
       (fun repository =>
          negb (fork repository) && negb (isExcludedLanguage (language repository)))
       repositories).

(** Lines 28 to 33: the callback of [reduce]. *)
Definition count_language (total : nat) (accumulator : obj)
    (language : option string) : obj :=
  let key := property_key language in
  let accumulator :=
    match get accumulator key with
    | Undefined => set accumulator key (PNum 0)
    | _ => accumulator
    end in
  set accumulator key
    (plus (get accumulator key) key (100 / inject_Z (Z.of_nat total))).

Record LanguageStat := {
  name : string;
  persentase : pval
}.

(** [ToNumber] of a stored value; [None] is [NaN].  A [PText] starts with
    the source text of a built-in, which is not a numeric literal. *)
Definition to_number (v : pval) : option Q :=
  match v with
  | PNum x => Some x
  | PNaN | PText _ _ => None
  end.

(** Line 43: [(a, b) => b.persentase - a.persentase]. *)
Definition comparator (a b : LanguageStat) : option Q :=
  match to_number (persentase b), to_number (persentase a) with
  | Some y, Some x => Some (y - x)%Q
  | _, _ => None
  end.

(** [Array.prototype.sort] reads a comparator result that is [NaN] as
    [+0]; [a] may stay in front of [b] when the result is not positive. *)
Definition keeps_order (a b : LanguageStat) : bool :=
  match comparator a b with
  | Some d => Qle_bool d 0%Q
  | None => true
  end.

(** [Array.prototype.sort] as a stable insertion sort.  With a consistent
    comparator every conforming engine returns this very list; with an
    inconsistent one the language leaves the order to the engine. *)
Fixpoint insert_sorted (a : LanguageStat) (l : list LanguageStat) : list LanguageStat :=
  match l with
  | [] => [a]
  | b :: l' => if keeps_order a b then a :: l else b :: insert_sorted a l'
  end.

Fixpoint sort (l : list LanguageStat) : list LanguageStat :=
  match l with
  | [] => []
  | a :: l' => insert_sorted a (sort l')
  end.

(** Lines 38 to 41: [{ name: key, persentase: persentase[key] }].  The
    keys come from [Object.keys], so the lookup always finds an own
    property. *)
Definition entry (o : obj) (key : string) : LanguageStat :=
  {| name := key;
     persentase := match get o key with
                   | Own v => v
                   | _ => PNaN
                   end |}.

(** The body the languages handler answers with (lines 19 to 43). *)
Definition languages_handler (repositories : list GithubRepository)
  : list LanguageStat :=
  let languages := languages_of repositories in
  let total := List.length languages in
  let persentase := fold_left (count_language total) languages [] in
  sort (List.map (entry persentase) (keys persentase)).

(** The [stars] the star-count handler answers with (lines 65 to 68). *)
Definition stars_handler (repositories : list GithubRepository) : Z :=
  fold_left
    (fun accumulator repository =>
       if fork repository then accumulator
       else (accumulator + stargazers_count repository)%Z)
    repositories 0%Z.

(** [x >= y] on stored values: false unless both are numbers. *)
Definition pge (x y : pval) : Prop :=
  match x, y with
  | PNum a, PNum b => (b <= a)%Q
  | _, _ => False
  end.

Definition by_persentase (a b : LanguageStat) : Prop :=
  pge (persentase a) (persentase b).

(** Sorted in non-increasing order of [persentase]. *)
Definition non_increasing (l : list LanguageStat) : Prop :=
  Sorted by_persentase l.

End Github.

(** ** A small build machine to run the loaders on *)

Module Demo.
Import Content.

Definition nl : string := String (ascii_of_nat 10) "".

(** A post whose front-matter has a numeric [title], a [useLatex] that is
    text, and no [intro]. *)
Definition typed_md : string :=
  "---" ++ nl ++ "title: 42" ++ nl ++ "useLatex: maybe" ++ nl
  ++ "dateCreated: 13 Mar 2021" ++ nl ++ "categories: [go]" ++ nl
  ++ "---" ++ nl ++ "hello".

(** An ordinary post. *)
Definition plain_md : string :=
  "---" ++ nl ++ "title: Adapter" ++ nl ++ "---" ++ nl ++ "hello".

Definition typed_data : gmap string value :=
  <["title" := VNum 42]>
    (<["useLatex" := VStr "maybe"]>
      (<["dateCreated" := VStr "13 Mar 2021"]>
        (<["categories" := VList [VStr "go"]]> ∅))).

(** gray-matter on the two texts above; a text without a front-matter
    block comes back whole, with an empty object. *)
Definition demo_grayMatter (rawMarkdown : string)
  : result (gmap string value * string) :=
  if String.eqb rawMarkdown typed_md then
    Ok (typed_data, "hello")
  else if String.eqb rawMarkdown plain_md then
    Ok (<["title" := VStr "Adapter"]> ∅, "hello")
  else Ok (∅, rawMarkdown).

Fixpoint read (files : list (string * string)) (path : string) : result string :=
  match files with
  | [] => Throw (Error "ENOENT: no such file or directory")
  | (p, text) :: files' => if String.eqb p path then Ok text else read files' path
  end.

(** A stand-in for the ten packages, to watch the order of a run: trees
    are texts, the parser and the compiler copy their input, a syntax
    extension marks what the parser returns, and a transformer signs the
    tree with the name of its package. *)
Definition package (pl : Unified.plugin) : string :=
  match pl with
  | Unified.remark => "remark-parse"
  | Unified.gfm => "remark-gfm"
  | Unified.math => "remark-math"
  | Unified.remark2rehype => "remark-rehype"
  | Unified.prism => "mdx-prism"
  | Unified.figure => "rehype-figure"
  | Unified.katex => "rehype-katex"
  | Unified.raw => "rehype-raw"
  | Unified.minify => "rehype-minify-whitespace"
  | Unified.stringify => "rehype-stringify"
  end.

Definition signing (s : Unified.options) (pl : Unified.plugin)
    (o : Unified.options) (c : Unified.config string)
  : Unified.config string * option (string -> result string) :=
  match pl with
  | Unified.remark =>
      ({| Unified.Parser := Some (fun md => Ok md);
          Unified.Compiler := Unified.Compiler string c |}, None)
  | Unified.gfm | Unified.math =>
      ({| Unified.Parser :=
            match Unified.Parser string c with
            | Some parser =>
                Some (fun md => tree ← parser md;
                                Ok (tree ++ " +" ++ package pl)%string)
            | None => None
            end;
          Unified.Compiler := Unified.Compiler string c |}, None)
  | Unified.stringify =>
      ({| Unified.Parser := Unified.Parser string c;
          Unified.Compiler := Some (fun tree => Ok tree) |}, None)
  | _ => (c, Some (fun tree => Ok (tree ++ " > " ++ package pl)%string))
  end.

(** A quieter stand-in, right for a body of one word: parser and
    transformers copy their input and the compiler wraps it in a paragraph. *)
Definition paragraph (s : Unified.options) (pl : Unified.plugin)
    (o : Unified.options) (c : Unified.config string)
  : Unified.config string * option (string -> result string) :=
  match pl with
  | Unified.remark =>
      ({| Unified.Parser := Some (fun md => Ok md);
          Unified.Compiler := Unified.Compiler string c |}, None)
  | Unified.gfm | Unified.math => (c, None)
  | Unified.stringify =>
      ({| Unified.Parser := Unified.Parser string c;
          Unified.Compiler := Some (fun tree => Ok ("<p>" ++ tree ++ "</p>")%string) |},
       None)
  | _ => (c, Some (fun tree => Ok tree))
  end.

(** A machine whose content directory lists [names] and whose readable
    files are [files].  The body of every post is the one word [hello]. *)
Definition machine (names : list string) (files : list (string * string)) : Env :=
  {| contentDir := "/blog/contents";
     path_join := fun dir name => (dir ++ "/" ++ name)%string;
     readdirSync := fun dir =>
       if String.eqb dir "/blog/contents" then Ok names
       else Throw (Error "ENOENT: no such file or directory");
     readFileSync := read files;
     grayMatter := demo_grayMatter;
     countReadingTime := fun _ => Ok {| text := "1 min read" |};
     node := string;
     attach := paragraph |}.

(** [b.md] is listed but cannot be read. *)
Definition broken : Env :=
  machine ["a.md"; "b.md"] [("/blog/contents/a.md", plain_md)].

(** One post with an ill-typed front-matter. *)
Definition typed : Env :=
  machine ["typed.md"] [("/blog/contents/typed.md", typed_md)].

(** Two files with [".md"] in the middle of their names. *)
Definition twice : Env :=
  machine [".mda.mdb"; "a.mdb.md"]
    [("/blog/contents/.mda.mdb", "notes"); ("/blog/contents/a.mdb.md", plain_md)].

(** Repositories for the statistics handlers. *)
Definition repo (fork : bool) (language : string) (stars : Z)
  : Github.GithubRepository :=
  {| Github.fork := fork;
     Github.language := Some language;
     Github.stargazers_count := stars |}.

End Demo.

(** ** What the pages render *)

Module Pages.
Import Content.

(** The truth value JavaScript gives a front-matter field in a condition:
    [undefined], [null], [false], [0] and the empty text are false, any
    other value, a list or a date included, is true. *)
Definition truthy (v : option value) : bool :=
  match v with
  | None => false
  | Some (VStr s) => negb (String.eqb s "")
  | Some (VBool b) => b
  | Some (VNum n) => negb (Z.eqb n 0)
  | Some VNull => false
  | Some (VDate _) => true
  | Some (VList _) => true
  end.

(** [slug].tsx, lines 33 to 40: [metadata.useLatex && <link ... />], whether
    the head of a post page links the KaTeX stylesheet. *)
Definition links_katex (m : ContentMetadata) : bool := truthy (useLatex m).

(** index.tsx, lines 23 to 25: the [key] of every card, in order. *)
Definition card_keys (data : list ContentMetadata) : list string :=
  List.map slug data.

(** stats.tsx, lines 101 to 120. *)
Definition colors : list string :=
  ["blue"; "yellow"; "pink"; "cyan"; "facebook"; "gray"; "orange"; "green";
   "purple"; "red"; "teal"; "whiteAlpha"; "blackAlpha"; "linkedin";
   "messenger"; "whatsapp"; "twitter"; "telegram"].

(** stats.tsx, line 172: [colors[index % colors.length]] for the row at
    position [index]; [None] would be [undefined]. *)
Definition colorScheme (index : nat) : option string :=
  nth_error colors (index mod List.length colors).

End Pages.

(** ** Vocabulary for the properties *)

Module Vocabulary.

(** A file name made of a base without [".md"] inside and the extension. *)
Definition well_named (filename : string) : Prop :=
  exists base, filename = (base ++ ".md")%string /\
               JsString.includes ".md" base = false.

(** How many of the counted languages go under the property key [key]. *)
Definition occurrences (key : string) (languages : list (option string)) : nat :=
  List.length
    (List.filter (fun l => String.eqb (Github.property_key l) key) languages).

(** The language is none of the names an object literal inherits. *)
Definition plain (repository : Github.GithubRepository) : Prop :=
  JsObject.inherited (Github.property_key (Github.language repository)) = false.

(** [100 / total], the step of the accumulator. *)
Definition step (total : nat) : Q := 100 / inject_Z (Z.of_nat total).

(** The share of [n] repositories out of [total]: [n] steps. *)
Definition share (n total : nat) : Q := inject_Z (Z.of_nat n) * step total.

(** The accumulator holds, for every language seen so far, its share. *)
Definition tallies (total : nat) (seen : list (option string)) (o : JsObject.obj)
  : Prop :=
  forall k,
    match JsObject.get_own o k with
    | None => occurrences k seen = 0
    | Some v => exists x, v = JsObject.PNum x /\ x == share (occurrences k seen) total
    end.



(** Star counts that doubles add without rounding, in whatever order:
    non-negative integers whose sum over the non-forks stays within 2^53. *)
Definition exactly_summable (repositories : list Github.GithubRepository) : Prop :=
  Forall (fun r => (0 <= Github.stargazers_count r)%Z) repositories /\
  (Github.stars_handler repositories <= 2 ^ 53)%Z.

End Vocabulary.

(** ** More sample inputs *)

Module Samples.

(** A content directory with two posts, both readable. *)
Definition blog : Content.Env :=
  Demo.machine ["adapter.md"; "typed.md"]
    [("/blog/contents/adapter.md", Demo.plain_md);
     ("/blog/contents/typed.md", Demo.typed_md)].


(** A machine whose serializer rejects every tree. *)
Definition unrenderable : Content.Env :=
  {| Content.contentDir := Content.contentDir blog;
     Content.path_join := Content.path_join blog;
     Content.readdirSync := Content.readdirSync blog;
     Content.readFileSync := Content.readFileSync blog;
     Content.grayMatter := Content.grayMatter blog;
     Content.countReadingTime := Content.countReadingTime blog;
     Content.node := string;
     Content.attach := fun s pl o c =>
       match pl with
       | Unified.stringify =>
           ({| Unified.Parser := Unified.Parser string c;
               Unified.Compiler := Some (fun _ => Throw (Error "cannot compile")) |},
            None)
       | _ => Demo.paragraph s pl o c
       end |}.

End Samples.

(** * Part II: properties *)

(** ** Strings *)

Module JsStringFacts.
Import JsString.

Lemma append_empty (s : string) : ("" ++ s)%string = s.
Proof. reflexivity. Qed.

Lemma append_String (c : ascii) (s t : string) :
  (String c s ++ t)%string = String c (s ++ t)%string.
Proof. reflexivity. Qed.

Lemma length_drop (n : nat) (s : string) :
  String.length (drop n s) = String.length s - n.
Proof.
  revert s; induction n as [|n IH]; intros [|c s]; simpl; auto; lia.
Qed.

Lemma prefix_length (p s : string) :
  String.prefix p s = true -> String.length p <= String.length s.
Proof.
  revert s; induction p as [|a p IH]; intros [|b s]; simpl; try lia; try discriminate.
  destruct (ascii_dec a b); [|discriminate].
  intros H; apply IH in H; lia.
Qed.

Lemma prefix_includes (p s : string) :
  String.prefix p s = true -> includes p s = true.
Proof. intros H; destruct s; simpl in *; rewrite H; reflexivity. Qed.

Lemma includes_cons (p : string) (c : ascii) (s : string) :
  includes p (String c s) = false ->
  String.prefix p (String c s) = false /\ includes p s = false.
Proof.
  cbn [includes]. destruct (String.prefix p (String c s)); [discriminate | auto].
Qed.

(** Removing the first occurrence of a non-empty pattern changes the
    string exactly when there is an occurrence. *)
Lemma replace_fixed_iff (p s : string) :
  p <> "" ->
  replace p "" s = s <-> includes p s = false.
Proof.
  intros Hp; induction s as [|c s IH].
  - destruct p as [|a p]; [congruence|]. simpl. tauto.
  - cbn [replace includes].
    destruct (String.prefix p (String c s)) eqn:Hpre.
    + split; [|discriminate].
      intros Heq. apply (f_equal String.length) in Heq.
      rewrite append_empty, length_drop in Heq.
      apply prefix_length in Hpre.
      destruct p as [|a p]; [congruence|]. simpl in *. lia.
    + rewrite <- IH. split; [intros [= H]; exact H | intros ->; reflexivity].
Qed.

Lemma replace_absent (p r s : string) :
  includes p s = false -> replace p r s = s.
Proof.
  induction s as [|c s IH]; intros H.
  - cbn [includes replace] in *.
    destruct (String.prefix p ""); [discriminate | reflexivity].
  - apply includes_cons in H as [Hpre Hs].
    cbn [replace]. rewrite Hpre, IH; auto.
Qed.

End JsStringFacts.

(** ** Slugs *)

Module SlugFacts.
Import JsString JsStringFacts.

Lemma slugOf_fixed_iff (s : string) :
  slugOf s = s <-> includes ".md" s = false.
Proof. apply replace_fixed_iff; discriminate. Qed.

(** A name without [".md"] inside gets exactly its extension removed: the
    appended [".md"] is the first occurrence, because an occurrence that
    started earlier would need an ["m"] or a ["d"] where the appended dot
    stands. *)
Lemma slugOf_extension (base : string) :
  includes ".md" base = false -> slugOf (base ++ ".md")%string = base.
Proof.
  unfold slugOf. induction base as [|c base IH]; intros H; [reflexivity|].
  apply includes_cons in H as [Hpre Hbase].
  specialize (IH Hbase).
  rewrite append_String. cbn [replace].
  assert (Hno : String.prefix ".md" (String c (base ++ ".md")%string) = false).
  { revert Hpre. cbn [String.prefix].
    destruct (ascii_dec "." c); [|auto].
    destruct base as [|c2 base]; [intros _; reflexivity|].
    rewrite append_String. cbn [String.prefix].
    destruct (ascii_dec "m" c2); [|auto].
    destruct base as [|c3 base]; [intros _; reflexivity|].
    rewrite append_String. cbn [String.prefix].
    destruct (ascii_dec "d" c3); [|auto].
    intros H; destruct base; discriminate H. }
  rewrite Hno, IH. reflexivity.
Qed.

Example slugOf_post : slugOf "adapter.md" = "adapter".
Proof. reflexivity. Qed.

Example slugOf_no_extension : slugOf "README" = "README".
Proof. reflexivity. Qed.

Example slugOf_first_occurrence : slugOf "a.mdb.md" = "ab.md".
Proof. reflexivity. Qed.

End SlugFacts.

(** ** Exceptions in a [map] *)

Module ResultFacts.

Lemma throws_not_returns {A} (r : result A) : throws r -> ~ returns r.
Proof. intros [e ->] [a H]; discriminate H. Qed.

Lemma bind_throw {A B} (r : result A) (k : A -> result B) (e : exn) :
  r = Throw e -> (x ← r; k x) = Throw e.
Proof. intros ->; reflexivity. Qed.

Lemma bind_ok {A B} (r : result A) (k : A -> result B) (a : A) :
  r = Ok a -> (x ← r; k x) = k a.
Proof. intros ->; reflexivity. Qed.

(** One throwing element is enough for the whole [map] to throw: either an
    earlier element threw already, or this one does. *)
Lemma mapM_throws {A B} (f : A -> result B) (l : list A) (x : A) :
  In x l -> throws (f x) -> throws (mapM f l).
Proof.
  induction l as [|y l IH]; intros Hin Hx; [destruct Hin|].
  cbn [mapM]. destruct (f y) as [b|e] eqn:Hy.
  - destruct Hin as [->|Hin].
    + destruct Hx as [e He]; congruence.
    + destruct (IH Hin Hx) as [e ->]. exists e; reflexivity.
  - exists e; reflexivity.
Qed.

Lemma mapM_returns {A B} (f : A -> result B) (l : list A) (ys : list B) :
  mapM f l = Ok ys -> Forall2 (fun x y => f x = Ok y) l ys.
Proof.
  revert ys; induction l as [|x l IH]; intros ys; cbn [mapM].
  - intros [= <-]; constructor.
  - destruct (f x) as [y|e] eqn:Hx; [|discriminate]. cbn [bind].
    destruct (mapM f l) as [ys'|e]; [|discriminate]. cbn [bind].
    intros [= <-]; constructor; auto.
Qed.

End ResultFacts.

(** ** The content loaders *)

Module ContentFacts.
Import Content ResultFacts.

Section Loaders.

Variable E : Env.

Lemma index_entry_unreadable (filename : string) (e : exn) :
  readFileSync E (path_join E (contentDir E) filename) = Throw e ->
  index_entry E filename = Throw e.
Proof. intros H; unfold index_entry. apply bind_throw, H. Qed.

Lemma post_unreadable (slug : string) (e : exn) :
  readFileSync E (path_join E (contentDir E) (slug ++ ".md")) = Throw e ->
  post_getStaticProps E slug = Throw e.
Proof. intros H; unfold post_getStaticProps. apply bind_throw, H. Qed.

(** What the index loader returns for a file that is read and parsed. *)
Lemma index_entry_value (filename rawMarkdown content : string)
    (data : gmap string value) (rt : ReadTimeResults) :
  readFileSync E (path_join E (contentDir E) filename) = Ok rawMarkdown ->
  grayMatter E rawMarkdown = Ok (data, content) ->
  countReadingTime E content = Ok rt ->
  index_entry E filename =
    Ok {| title := data !! "title";
          slug := slugOf filename;
          readTime := text rt;
          dateCreated := data !! "dateCreated";
          categories := data !! "categories";
          intro := data !! "intro";
          useLatex := data !! "useLatex" |}.
Proof.
  intros Hread Hgm Hrt. unfold index_entry.
  rewrite (bind_ok _ _ _ Hread), (bind_ok _ _ _ Hgm). cbn beta iota.
  rewrite (bind_ok _ _ _ Hrt). reflexivity.
Qed.

(** The same for the post loader, whose renderer has to return as well. *)
Lemma post_value (slug rawMarkdown content html : string)
    (data : gmap string value) (rt : ReadTimeResults) :
  readFileSync E (path_join E (contentDir E) (slug ++ ".md")) = Ok rawMarkdown ->
  grayMatter E rawMarkdown = Ok (data, content) ->
  countReadingTime E content = Ok rt ->
  makrdown2Html E content = Ok html ->
  post_getStaticProps E slug =
    Ok {| metadata :=
            {| title := data !! "title";
               slug := slug;
               readTime := text rt;
               dateCreated := data !! "dateCreated";
               categories := data !! "categories";
               intro := data !! "intro";
               useLatex := data !! "useLatex" |};
          htmlString := html |}.
Proof.
  intros Hread Hgm Hrt Hhtml. unfold post_getStaticProps.
  rewrite (bind_ok _ _ _ Hread), (bind_ok _ _ _ Hgm). cbn beta iota.
  rewrite (bind_ok _ _ _ Hrt). cbn zeta.
  rewrite (bind_ok _ _ _ Hhtml). reflexivity.
Qed.

Lemma field_schema (key : string) (m : ContentMetadata) (data : gmap string value) :
  title m = data !! "title" ->
  dateCreated m = data !! "dateCreated" ->
  intro m = data !! "intro" ->
  categories m = data !! "categories" ->
  useLatex m = data !! "useLatex" ->
  In key schema_fields -> field key m = data !! key.
Proof.
  intros Ht Hd Hi Hc Hu Hin. unfold schema_fields in Hin. cbn [In] in Hin.
  destruct Hin as [<-|[<-|[<-|[<-|[<-|[]]]]]]; cbn; assumption.
Qed.

(** Both loaders read the file [slug ++ ".md"]: apart from the slug, the
    metadata they build is the same. *)
Lemma loaders_agree_but_slug (slug : string) (m : ContentMetadata)
    (pm : ParsedMarkdown) :
  index_entry E (slug ++ ".md") = Ok m ->
  post_getStaticProps E slug = Ok pm ->
  title (metadata pm) = title m /\
  readTime (metadata pm) = readTime m /\
  dateCreated (metadata pm) = dateCreated m /\
  categories (metadata pm) = categories m /\
  intro (metadata pm) = intro m /\
  useLatex (metadata pm) = useLatex m /\
  Content.slug m = slugOf (slug ++ ".md") /\
  Content.slug (metadata pm) = slug.
Proof.
  unfold index_entry, post_getStaticProps.
  destruct (readFileSync E _) as [rawMarkdown|e]; [|discriminate].
  cbn [mbind result_mbind bind].
  destruct (grayMatter E rawMarkdown) as [[data content]|e]; [|discriminate].
  cbn [mbind result_mbind bind].
  destruct (countReadingTime E content) as [rt|e]; [|discriminate].
  cbn [mbind result_mbind bind].
  destruct (makrdown2Html E content) as [html|e]; [|discriminate].
  cbn [mbind result_mbind bind mret result_mret].
  intros [= <-] [= <-]. cbn. repeat split.
Qed.

(** For a post named [base.md] whose base has no [".md"] in it, the two
    loaders build the very same metadata. *)
Lemma loaders_agree (slug : string) (m : ContentMetadata) (pm : ParsedMarkdown) :
  JsString.includes ".md" slug = false ->
  index_entry E (slug ++ ".md") = Ok m ->
  post_getStaticProps E slug = Ok pm ->
  metadata pm = m.
Proof.
  intros Hclean Hm Hpm.
  destruct (loaders_agree_but_slug slug m pm Hm Hpm)
    as (Ht & Hr & Hd & Hc & Hi & Hu & Hs & Hs').
  rewrite (SlugFacts.slugOf_extension slug Hclean) in Hs.
  destruct m, pm as [[] ?]; cbn in *; congruence.
Qed.

End Loaders.

(** C6, as stated, fails for the post page: [b.md] is listed and cannot be
    read, so the index loader throws; yet the post loader of the slug [a],
    which reads [a.md] only, returns. *)
Lemma unreadable_file_spares_other_posts :
  readdirSync Demo.broken (contentDir Demo.broken) = Ok ["a.md"; "b.md"] /\
  throws (readFileSync Demo.broken
            (path_join Demo.broken (contentDir Demo.broken) "b.md")) /\
  throws (index_getStaticProps Demo.broken) /\
  returns (post_getStaticProps Demo.broken "a") /\
  ~ throws (post_getStaticProps Demo.broken "a").
Proof.
  split; [reflexivity|]. split; [eexists; reflexivity|].
  split; [eexists; vm_compute; reflexivity|].
  assert (Hret : returns (post_getStaticProps Demo.broken "a"))
    by (eexists; vm_compute; reflexivity).
  split; [exact Hret|]. intros Hthrows.
  exact (throws_not_returns _ Hthrows Hret).
Qed.

(** C6, amended: when a file listed in the content directory cannot be
    read, the index loader throws and so returns nothing, not even the
    metadata of the files it could read.  The post loader reads the file of
    its own slug and no other: it throws the error of the read, and returns
    nothing, when that file cannot be read, and it is not disturbed by the
    unreadable file of another slug. *)
Theorem unreadable_file_is_fatal (E : Env) (filenames : list string)
    (filename : string) (e : exn)
    (Hdir : readdirSync E (contentDir E) = Ok filenames)
    (Hin : In filename filenames)
    (Hread : readFileSync E (path_join E (contentDir E) filename) = Throw e) :
  throws (index_getStaticProps E) /\
  ~ returns (index_getStaticProps E) /\
  (forall slug e',
     readFileSync E (path_join E (contentDir E) (slug ++ ".md")) = Throw e' ->
     post_getStaticProps E slug = Throw e' /\
     ~ returns (post_getStaticProps E slug)) /\
  (forall slug rawMarkdown data content rt html,
     readFileSync E (path_join E (contentDir E) (slug ++ ".md")) = Ok rawMarkdown ->
     grayMatter E rawMarkdown = Ok (data, content) ->
     countReadingTime E content = Ok rt ->
     makrdown2Html E content = Ok html ->
     returns (post_getStaticProps E slug)).
Proof.
  assert (Hthrows : throws (index_getStaticProps E)).
  { unfold index_getStaticProps. rewrite (bind_ok _ _ _ Hdir).
    apply (mapM_throws _ _ filename Hin).
    exists e. apply index_entry_unreadable, Hread. }
  split; [exact Hthrows|]. split; [apply throws_not_returns, Hthrows|]. split.
  - intros slug e' Hread'.
    pose proof (post_unreadable E slug e' Hread') as Hpost.
    split; [exact Hpost|]. apply throws_not_returns. exists e'; exact Hpost.
  - intros slug rawMarkdown data content rt html Hread' Hgm Hrt Hhtml.
    eexists. apply (post_value E _ _ _ _ _ _ Hread' Hgm Hrt Hhtml).
Qed.

Lemma unreadable_file_is_fatal_witness :
  throws (index_getStaticProps Demo.broken) /\
  ~ returns (index_getStaticProps Demo.broken) /\
  post_getStaticProps Demo.broken "b"
  = Throw (Error "ENOENT: no such file or directory") /\
  returns (post_getStaticProps Demo.broken "a").
Proof.
  destruct (unreadable_file_is_fatal Demo.broken ["a.md"; "b.md"] "b.md"
              (Error "ENOENT: no such file or directory"))
    as (Hthrows & Hnone & Hown & Hother).
  - reflexivity.
  - simpl; auto.
  - reflexivity.
  - split; [exact Hthrows|]. split; [exact Hnone|]. split.
    + apply (Hown "b"). reflexivity.
    + apply (Hother "a" Demo.plain_md (<["title" := VStr "Adapter"]> ∅) "hello"
               {| text := "1 min read" |} "<p>hello</p>"); reflexivity.
Defined.

Example broken_post_page_throws :
  post_getStaticProps Demo.broken "b"
  = Throw (Error "ENOENT: no such file or directory").
Proof. reflexivity. Qed.

Example broken_other_post_page_returns :
  returns (post_getStaticProps Demo.broken "a").
Proof. eexists; vm_compute; reflexivity. Qed.

(** C7, as stated, fails: the [useLatex] of [typed.md] is present and
    ill-typed (a text where the schema wants a boolean), and both loaders
    hand it on as it is instead of leaving the field undefined. *)
Lemma malformed_field_is_kept :
  grayMatter Demo.typed Demo.typed_md
  = Ok (Demo.typed_data, "hello") /\
  Demo.typed_data !! "useLatex" = Some (VStr "maybe") /\
  well_formed "useLatex" (VStr "maybe") = false /\
  (exists m, index_entry Demo.typed "typed.md" = Ok m /\
             field "useLatex" m = Some (VStr "maybe") /\
             field "useLatex" m <> None) /\
  (exists pm, post_getStaticProps Demo.typed "typed" = Ok pm /\
              field "useLatex" (metadata pm) = Some (VStr "maybe") /\
              field "useLatex" (metadata pm) <> None).
Proof.
  split; [reflexivity|]. split; [reflexivity|]. split; [reflexivity|]. split.
  - eexists. split; [vm_compute; reflexivity|]. split; [reflexivity|discriminate].
  - eexists. split; [vm_compute; reflexivity|]. split; [reflexivity|discriminate].
Qed.

(** C7, amended: a file that is read and that gray-matter and
    reading-time handle never makes the index loader throw; the post loader
    needs the renderer to return as well.  Each of the five schema fields of
    the metadata is exactly what the front-matter holds under that key, so
    a missing key gives an undefined field and a present one is copied
    whatever its shape; slug and readTime are set. *)
Theorem front_matter_is_copied (E : Env) (filename slug : string)
    (rawMarkdown content : string) (data : gmap string value)
    (rt : ReadTimeResults)
    (rawMarkdown' content' html : string) (data' : gmap string value)
    (rt' : ReadTimeResults) :
  (readFileSync E (path_join E (contentDir E) filename) = Ok rawMarkdown ->
   grayMatter E rawMarkdown = Ok (data, content) ->
   countReadingTime E content = Ok rt ->
   exists m,
     index_entry E filename = Ok m /\
     (forall key, In key schema_fields -> field key m = data !! key) /\
     (forall key, In key schema_fields -> data !! key = None -> field key m = None) /\
     Content.slug m = slugOf filename /\
     readTime m = text rt) /\
  (readFileSync E (path_join E (contentDir E) (slug ++ ".md")) = Ok rawMarkdown' ->
   grayMatter E rawMarkdown' = Ok (data', content') ->
   countReadingTime E content' = Ok rt' ->
   makrdown2Html E content' = Ok html ->
   exists pm,
     post_getStaticProps E slug = Ok pm /\
     (forall key, In key schema_fields -> field key (metadata pm) = data' !! key) /\
     (forall key, In key schema_fields -> data' !! key = None ->
                  field key (metadata pm) = None) /\
     Content.slug (metadata pm) = slug /\
     readTime (metadata pm) = text rt').
Proof.
  split.
  - intros Hread Hgm Hrt.
    eexists. split; [apply (index_entry_value E _ _ _ _ _ Hread Hgm Hrt)|].
    assert (Hcopy : forall key, In key schema_fields ->
              field key
                {| title := data !! "title"; slug := slugOf filename;
                   readTime := text rt; dateCreated := data !! "dateCreated";
                   categories := data !! "categories"; intro := data !! "intro";
                   useLatex := data !! "useLatex" |} = data !! key)
      by (intros key; apply field_schema; reflexivity).
    repeat split; auto.
    intros key Hin Hnone. rewrite (Hcopy key Hin). exact Hnone.
  - intros Hread' Hgm' Hrt' Hhtml.
    eexists. split; [apply (post_value E _ _ _ _ _ _ Hread' Hgm' Hrt' Hhtml)|].
    cbn [metadata].
    assert (Hcopy : forall key, In key schema_fields ->
              field key
                {| title := data' !! "title"; slug := slug;
                   readTime := text rt'; dateCreated := data' !! "dateCreated";
                   categories := data' !! "categories"; intro := data' !! "intro";
                   useLatex := data' !! "useLatex" |} = data' !! key)
      by (intros key; apply field_schema; reflexivity).
    repeat split; auto.
    intros key Hin Hnone. rewrite (Hcopy key Hin). exact Hnone.
Qed.

(** On [Samples.unrenderable] the renderer never returns: the index half
    applies all the same. *)
Lemma front_matter_is_copied_witness :
  (exists m,
      index_entry Samples.unrenderable "typed.md" = Ok m /\
      (forall key, In key schema_fields -> field key m = Demo.typed_data !! key) /\
      (forall key, In key schema_fields ->
                   Demo.typed_data !! key = None -> field key m = None) /\
      Content.slug m = slugOf "typed.md" /\
      readTime m = "1 min read") /\
  (exists pm,
      post_getStaticProps Demo.typed "typed" = Ok pm /\
      (forall key, In key schema_fields ->
                   field key (metadata pm) = Demo.typed_data !! key) /\
      (forall key, In key schema_fields ->
                   Demo.typed_data !! key = None ->
                   field key (metadata pm) = None) /\
      Content.slug (metadata pm) = "typed" /\
      readTime (metadata pm) = "1 min read").
Proof.
  split.
  - apply (proj1 (front_matter_is_copied Samples.unrenderable "typed.md" "typed"
                    Demo.typed_md "hello" Demo.typed_data {| text := "1 min read" |}
                    Demo.typed_md "hello" "<p>hello</p>" Demo.typed_data
                    {| text := "1 min read" |})); reflexivity.
  - apply (proj2 (front_matter_is_copied Demo.typed "typed.md" "typed"
                    Demo.typed_md "hello" Demo.typed_data {| text := "1 min read" |}
                    Demo.typed_md "hello" "<p>hello</p>" Demo.typed_data
                    {| text := "1 min read" |})); reflexivity.
Defined.

Example typed_intro_is_undefined :
  exists m, index_entry Demo.typed "typed.md" = Ok m /\ intro m = None.
Proof. eexists; split; [vm_compute; reflexivity | reflexivity]. Qed.

(** C10 at a directory that holds [.mda.mdb] and [a.mdb.md]:
    [getStaticPaths] announces the slugs [a.mdb] and [ab.md].  The post
    loader for [a.mdb] reads the file [a.mdb.md] and keeps the slug
    [a.mdb]; the index loader gives the same file the slug [ab.md].  The
    page of the route [ab.md] looks for [ab.md.md], which is not there. *)
Theorem loaders_disagree_on_slug :
  getStaticPaths Demo.twice = Ok ["a.mdb"; "ab.md"] /\
  (exists m pm,
      index_entry Demo.twice "a.mdb.md" = Ok m /\
      post_getStaticProps Demo.twice "a.mdb" = Ok pm /\
      path_join Demo.twice (contentDir Demo.twice) ("a.mdb" ++ ".md")
      = path_join Demo.twice (contentDir Demo.twice) "a.mdb.md" /\
      Content.slug m = "ab.md" /\
      Content.slug (metadata pm) = "a.mdb" /\
      metadata pm <> m) /\
  throws (post_getStaticProps Demo.twice "ab.md").
Proof.
  split; [reflexivity|]. split.
  - do 2 eexists.
    split; [vm_compute; reflexivity|]. split; [vm_compute; reflexivity|].
    split; [reflexivity|]. split; [reflexivity|]. split; [reflexivity|].
    intros H; discriminate H.
  - eexists; vm_compute; reflexivity.
Qed.

(** C4, as stated, fails at the file name [a.md.md]: its slug is [a.md],
    and deriving once more gives [a]. *)
Lemma slug_is_not_idempotent :
  slugOf "a.md.md" = "a.md" /\
  slugOf (slugOf "a.md.md") = "a" /\
  slugOf (slugOf "a.md.md") <> slugOf "a.md.md".
Proof. split; [reflexivity|]. split; [reflexivity|]. discriminate. Qed.

End ContentFacts.

(** ** The markdown renderer *)

Module UnifiedFacts.
Import Unified.

Section Order.

Variable node : Type.
Variable attach :
  options -> plugin -> options -> config node -> config node * option (node -> result node).

(** The transformer a plugin contributes, when that does not depend on
    what was attached before it. *)
Variable transformer : plugin -> options -> option (node -> result node).
Hypothesis attach_transformer :
  forall s pl o c, snd (attach s pl o c) = transformer pl o.

(** Transformers run in the order in which their plugins were attached. *)
Lemma freeze_transformers (s : options) (l : list (plugin * options)) (c : config node) :
  snd (freeze node attach s l c)
  = omap (fun '(pl, o) => transformer pl o) l.
Proof.
  revert c; induction l as [|[pl o] l IH]; intros c; [reflexivity|].
  cbn [freeze omap list_omap].
  specialize (attach_transformer s pl o c).
  destruct (attach s pl o c) as [c1 t]. cbn [snd] in attach_transformer.
  specialize (IH c1). destruct (freeze node attach s l c1) as [c2 ts].
  cbn [snd] in *. subst. destruct (transformer pl o); reflexivity.
Qed.

End Order.

(** C2, as stated, fails: the chain of [parse] is not the nine steps of the
    specification, because [katex] is attached as well, between [figure]
    and [raw]; run with packages that sign what they do, the nine steps and
    [parse] give different texts. *)
Lemma pipeline_is_not_the_nine_steps :
  List.map fst (attachers parse_processor) <> spec_pipeline /\
  In katex (List.map fst (attachers parse_processor)) /\
  ~ In katex spec_pipeline /\
  processSync string Demo.signing spec_processor "md"
  = Ok ("md +remark-gfm +remark-math > remark-rehype > mdx-prism"
        ++ " > rehype-figure > rehype-raw"
        ++ " > rehype-minify-whitespace")%string /\
  parse string Demo.signing "md"
  = Ok ("md +remark-gfm +remark-math > remark-rehype > mdx-prism"
        ++ " > rehype-figure > rehype-katex > rehype-raw"
        ++ " > rehype-minify-whitespace")%string /\
  parse string Demo.signing "md" <> processSync string Demo.signing spec_processor "md".
Proof.
  split; [discriminate|]. split; [cbn; tauto|]. split.
  - cbn. intros H. repeat (destruct H as [H|H]; [discriminate H|]). exact H.
  - split; [reflexivity|]. split; [reflexivity|]. vm_compute. discriminate.
Qed.

(** C2, amended: for every input the renderer runs one fixed chain, with
    no branch and no other step, in this order: the markdown parser, with
    the GFM and then the math syntax extensions applied to it, parses the
    text; the tree is converted to an HTML tree, its code blocks are
    highlighted, its images wrapped in figures, its math rendered by KaTeX,
    its raw HTML inlined and its whitespace collapsed, each step working on
    the result of the step before; the serializer turns the last tree into
    the text returned.  A step that throws ends the run with its error. *)
Theorem pipeline_of_parse :
  List.map fst (attachers parse_processor)
  = [remark; gfm; math; remark2rehype; prism; figure; katex; raw; minify;
     stringify] /\
  forall (node : Type)
         (parser : options -> string -> result node)
         (extend : plugin -> (string -> result node) -> string -> result node)
         (transformer : plugin -> options -> node -> result node)
         (compiler : node -> result string)
         (md : string),
    parse node (wired parser extend transformer compiler) md
    = (mdast ← extend math (extend gfm (parser [("position", false)])) md;
       hast ← transformer remark2rehype [] mdast;
       highlighted ← transformer prism [] hast;
       figured ← transformer figure [] highlighted;
       rendered ← transformer katex [("strict", false); ("colorIsTextColor", true)]
                    figured;
       inlined ← transformer raw [] rendered;
       minified ← transformer minify [] inlined;
       compiler minified).
Proof.
  split; [reflexivity|].
  intros node parser extend transformer compiler md.
  unfold parse, processSync. cbn.
  destruct (extend math (extend gfm (parser [("position", false)])) md) as [mdast|e];
    [|reflexivity]. cbn.
  destruct (transformer remark2rehype [] mdast) as [hast|e]; [|reflexivity]. cbn.
  destruct (transformer prism [] hast) as [highlighted|e]; [|reflexivity]. cbn.
  destruct (transformer figure [] highlighted) as [figured|e]; [|reflexivity]. cbn.
  destruct (transformer katex [("strict", false); ("colorIsTextColor", true)] figured)
    as [rendered|e]; [|reflexivity]. cbn.
  destruct (transformer raw [] rendered) as [inlined|e]; [|reflexivity]. cbn.
  destruct (transformer minify [] inlined) as [minified|e]; reflexivity.
Qed.

Example signed_run :
  parse string Demo.signing "md"
  = Ok ("md +remark-gfm +remark-math > remark-rehype > mdx-prism"
        ++ " > rehype-figure > rehype-katex > rehype-raw"
        ++ " > rehype-minify-whitespace")%string.
Proof. reflexivity. Qed.

Example no_parser_no_run :
  processSync string Demo.signing (use raw [] unified) "md"
  = Throw (Error "Cannot `processSync` without `Parser`").
Proof. reflexivity. Qed.

End UnifiedFacts.

(** ** Plain objects *)

Module JsObjectFacts.
Import JsObject.

Lemma get_own_In (o : obj) (key : string) (v : pval) :
  get_own o key = Some v -> In (key, v) o.
Proof.
  induction o as [|[k w] o IH]; cbn [get_own]; [discriminate|].
  destruct (String.eqb_spec k key) as [->|Hne].
  - intros [= ->]; left; reflexivity.
  - intros H; right; auto.
Qed.

Lemma get_own_None (o : obj) (key : string) :
  get_own o key = None <-> ~ In key (List.map fst o).
Proof.
  induction o as [|[k w] o IH]; cbn [get_own List.map fst In]; [intuition|].
  destruct (String.eqb_spec k key) as [->|Hne].
  - split; [discriminate | intros H; exfalso; apply H; left; reflexivity].
  - rewrite IH. tauto.
Qed.

Lemma get_own_app (o o' : obj) (key : string) :
  get_own (o ++ o') key
  = match get_own o key with Some v => Some v | None => get_own o' key end.
Proof.
  induction o as [|[k w] o IH]; [reflexivity|].
  cbn [app get_own]. destruct (String.eqb k key); auto.
Qed.

Lemma update_keys (o : obj) (key : string) (v : pval) :
  List.map fst (update o key v) = List.map fst o.
Proof.
  induction o as [|[k w] o IH]; [reflexivity|].
  cbn [update]. destruct (String.eqb k key); cbn [List.map fst]; congruence.
Qed.

Lemma update_all_numbers (o : obj) (key : string) (x : Q) :
  all_numbers o -> all_numbers (update o key (PNum x)).
Proof.
  induction 1 as [|[k w] o Hw Ho IH]; [constructor|].
  cbn [update]. destruct (String.eqb k key); constructor; auto.
  exists x; reflexivity.
Qed.

Lemma set_keys (o : obj) (key : string) (v : pval) (k : string) :
  In k (List.map fst (set o key v)) -> In k (List.map fst o) \/ k = key.
Proof.
  unfold set. destruct (String.eqb key "__proto__"); [auto|].
  destruct (get_own o key).
  - rewrite update_keys; auto.
  - rewrite List.map_app, in_app_iff. cbn. intros [H|[<-|[]]]; auto.
Qed.

(** [Object.keys] lists own keys only. *)
Lemma insert_index_In (x y : N * string) (l : list (N * string)) :
  In y (insert_index x l) -> y = x \/ In y l.
Proof.
  induction l as [|z l IH]; cbn [insert_index].
  - intros [<-|[]]; auto.
  - destruct (fst x <=? fst z)%N.
    + intros [<-|H]; auto.
    + intros [<-|H]; [right; left; reflexivity|].
      destruct (IH H); auto. right; right; assumption.
Qed.

Lemma split_keys_In (ks : list string) (k : string) :
  In k (List.map snd (fst (split_keys ks)) ++ snd (split_keys ks)) -> In k ks.
Proof.
  induction ks as [|k0 ks IH]; cbn [split_keys]; [cbn; tauto|].
  destruct (split_keys ks) as [idx others]. cbn [fst snd] in IH.
  destruct (array_index k0) as [n|]; cbn [fst snd]; rewrite in_app_iff.
  - intros [H|H].
    + apply in_map_iff in H as ([n' k'] & <- & H).
      apply insert_index_In in H as [[= -> ->]|H]; [left; reflexivity|].
      right; apply IH, in_app_iff. left. apply in_map_iff.
      exists (n', k'); auto.
    + right; apply IH, in_app_iff; auto.
  - intros [H|[<-|H]]; [|left; reflexivity|]; right; apply IH, in_app_iff; auto.
Qed.

Lemma keys_In (o : obj) (k : string) : In k (keys o) -> In k (List.map fst o).
Proof.
  unfold keys. intros H. apply split_keys_In.
  destruct (split_keys (List.map fst o)); exact H.
Qed.

Lemma inherited_proto : inherited "__proto__" = true.
Proof. reflexivity. Qed.

End JsObjectFacts.

(** ** The statistics handlers *)

Module GithubFacts.
Import JsObject JsObjectFacts Github.

(** *** Sorting *)

Lemma insert_sorted_perm (a : LanguageStat) (l : list LanguageStat) :
  Permutation (a :: l) (insert_sorted a l).
Proof.
  induction l as [|b l IH]; cbn [insert_sorted]; [reflexivity|].
  destruct (keeps_order a b); [reflexivity|].
  rewrite perm_swap. constructor. exact IH.
Qed.

Lemma sort_perm (l : list LanguageStat) : Permutation l (sort l).
Proof.
  induction l as [|a l IH]; cbn [sort]; [constructor|].
  rewrite <- insert_sorted_perm. constructor. exact IH.
Qed.

Lemma keeps_order_numbers (a b : LanguageStat) (x y : Q) :
  persentase a = PNum x -> persentase b = PNum y ->
  (keeps_order a b = true -> (y <= x)%Q) /\
  (keeps_order a b = false -> (x <= y)%Q).
Proof.
  intros Ha Hb. unfold keeps_order, comparator. rewrite Ha, Hb. cbn [to_number].
  split; intros H.
  - apply Qle_bool_iff in H. lra.
  - destruct (Qle_bool (y - x) 0) eqn:Hle; [discriminate|].
    assert (~ (y - x <= 0)%Q) by (rewrite <- Qle_bool_iff; congruence). lra.
Qed.

Lemma insert_sorted_HdRel (a b : LanguageStat) (l : list LanguageStat) :
  HdRel by_persentase b l -> by_persentase b a ->
  HdRel by_persentase b (insert_sorted a l).
Proof.
  intros Hl Hba. destruct l as [|c l]; cbn [insert_sorted]; [constructor; auto|].
  destruct (keeps_order a c); constructor; auto.
  inversion Hl; assumption.
Qed.

Lemma insert_sorted_sorted (a : LanguageStat) (l : list LanguageStat) :
  is_number (persentase a) ->
  Forall (fun s => is_number (persentase s)) l ->
  Sorted by_persentase l -> Sorted by_persentase (insert_sorted a l).
Proof.
  intros [x Ha] Hnum Hsorted.
  induction Hsorted as [|b l Hl IH Hb]; cbn [insert_sorted].
  - repeat constructor.
  - inversion Hnum as [|? ? [y Hy] Hnum']; subst.
    destruct (keeps_order_numbers a b x y Ha Hy) as [Hkeep Hmove].
    destruct (keeps_order a b) eqn:Hk.
    + constructor; [constructor; assumption|].
      constructor. unfold by_persentase. rewrite Ha, Hy. apply Hkeep; reflexivity.
    + constructor; [apply IH; assumption|].
      apply insert_sorted_HdRel; [assumption|].
      unfold by_persentase. rewrite Ha, Hy. apply Hmove; reflexivity.
Qed.

Lemma sort_sorted (l : list LanguageStat) :
  Forall (fun s => is_number (persentase s)) l -> non_increasing (sort l).
Proof.
  unfold non_increasing.
  induction 1 as [|a l Ha Hl IH]; cbn [sort]; [constructor|].
  apply insert_sorted_sorted; auto.
  apply (Permutation_Forall (sort_perm l)); assumption.
Qed.

(** A list of two entries or more is sorted only if all of them are
    numbers. *)
Lemma non_increasing_numbers (l : list LanguageStat) :
  non_increasing l -> 2 <= List.length l ->
  Forall (fun s => is_number (persentase s)) l.
Proof.
  unfold non_increasing.
  induction 1 as [|a l Hl IH Ha]; cbn [List.length]; [lia|].
  intros Hlen. destruct l as [|b l]; [cbn in Hlen; lia|].
  inversion Ha as [|? ? Hab]; subst. unfold by_persentase in Hab.
  assert (Hnum : is_number (persentase a) /\ is_number (persentase b)).
  { unfold pge in Hab. destruct (persentase a), (persentase b); try contradiction.
    split; eexists; reflexivity. }
  destruct Hnum as [Hna Hnb]. constructor; [assumption|].
  destruct l as [|c l]; [repeat constructor; assumption|].
  apply IH. cbn [List.length]. lia.
Qed.

(** *** The accumulator of the languages handler *)

Lemma not_inherited_not_proto (key : string) :
  inherited key = false -> String.eqb key "__proto__" = false.
Proof.
  intros H. destruct (String.eqb_spec key "__proto__") as [->|]; [|reflexivity].
  rewrite inherited_proto in H; discriminate H.
Qed.

(** Counting a language whose name is no inherited property keeps every
    own property a number. *)
Lemma count_language_numbers (total : nat) (accumulator : obj)
    (language : option string) :
  inherited (property_key language) = false ->
  all_numbers accumulator ->
  all_numbers (count_language total accumulator language).
Proof.
  intros Hkey Hnum. unfold count_language.
  set (key := property_key language) in *.
  set (c := (100 / inject_Z (Z.of_nat total))%Q).
  pose proof (not_inherited_not_proto key Hkey) as Hproto.
  destruct (get_own accumulator key) as [v|] eqn:Hown.
  - assert (Hv : is_number v).
    { apply get_own_In in Hown. unfold all_numbers in Hnum.
      rewrite List.Forall_forall in Hnum. apply (Hnum _ Hown). }
    destruct Hv as [a ->].
    assert (Hget : get accumulator key = Own (PNum a))
      by (unfold get; rewrite Hown; reflexivity).
    rewrite Hget. cbv beta iota zeta. rewrite Hget. cbn [plus].
    unfold set. rewrite Hproto, Hown. apply update_all_numbers, Hnum.
  - assert (Hget : get accumulator key = Undefined)
      by (unfold get; rewrite Hown, Hkey; reflexivity).
    rewrite Hget. cbv beta iota zeta.
    assert (Hset : set accumulator key (PNum 0) = accumulator ++ [(key, PNum 0)])
      by (unfold set; rewrite Hproto, Hown; reflexivity).
    rewrite Hset.
    assert (Hown' : get_own (accumulator ++ [(key, PNum 0)]) key = Some (PNum 0)).
    { rewrite get_own_app, Hown. cbn [get_own]. rewrite String.eqb_refl. reflexivity. }
    assert (Hget' : get (accumulator ++ [(key, PNum 0)]) key = Own (PNum 0))
      by (unfold get; rewrite Hown'; reflexivity).
    rewrite Hget'. cbn [plus].
    unfold set. rewrite Hproto, Hown'. apply update_all_numbers.
    apply List.Forall_app. split; [exact Hnum|].
    constructor; [exists 0%Q; reflexivity | constructor].
Qed.

Lemma count_language_keys (total : nat) (accumulator : obj)
    (language : option string) (k : string) :
  In k (List.map fst (count_language total accumulator language)) ->
  In k (List.map fst accumulator) \/ k = property_key language.
Proof.
  unfold count_language. intros H.
  apply set_keys in H as [H|H]; [|auto].
  destruct (get accumulator (property_key language)); auto.
  apply set_keys in H. exact H.
Qed.

Lemma fold_numbers (total : nat) (languages : list (option string)) (accumulator : obj) :
  Forall (fun l => inherited (property_key l) = false) languages ->
  all_numbers accumulator ->
  all_numbers (fold_left (count_language total) languages accumulator).
Proof.
  intros H; revert accumulator.
  induction H as [|l languages Hl _ IH]; intros accumulator Hacc; [exact Hacc|].
  cbn [fold_left]. apply IH, count_language_numbers; assumption.
Qed.

Lemma fold_keys (total : nat) (languages : list (option string))
    (accumulator : obj) (k : string) :
  In k (List.map fst (fold_left (count_language total) languages accumulator)) ->
  In k (List.map fst accumulator) \/ In k (List.map property_key languages).
Proof.
  revert accumulator; induction languages as [|l languages IH];
    intros accumulator; cbn [fold_left List.map In]; [auto|].
  intros H. apply IH in H as [H|H]; [|auto].
  apply count_language_keys in H as [H|H]; auto.
Qed.

Lemma entry_number (o : obj) (k : string) :
  all_numbers o -> In k (List.map fst o) -> is_number (persentase (entry o k)).
Proof.
  intros Hnum Hin. unfold entry, get. cbn [persentase].
  destruct (get_own o k) as [v|] eqn:Hown.
  - apply get_own_In in Hown. unfold all_numbers in Hnum.
    rewrite List.Forall_forall in Hnum. apply (Hnum _ Hown).
  - apply get_own_None in Hown. contradiction.
Qed.

(** *** What the handlers answer *)

Lemma languages_of_In (repositories : list GithubRepository) (l : option string) :
  In l (languages_of repositories) ->
  exists r, In r repositories /\ language r = l /\
            fork r = false /\ isExcludedLanguage l = false.
Proof.
  unfold languages_of. intros H. apply in_map_iff in H as (r & <- & H).
  apply filter_In in H as [Hin H]. apply andb_prop in H as [Hf He].
  exists r. repeat split; auto.
  - destruct (fork r); [discriminate|reflexivity].
  - destruct (isExcludedLanguage (language r)); [discriminate|reflexivity].
Qed.

Lemma languages_handler_names (repositories : list GithubRepository)
    (s : LanguageStat) :
  In s (languages_handler repositories) ->
  In (name s) (List.map property_key (languages_of repositories)).
Proof.
  unfold languages_handler. intros H.
  apply (Permutation_in _ (Permutation_sym (sort_perm _))) in H.
  apply in_map_iff in H as (k & <- & H). cbn [name entry].
  apply keys_In, fold_keys in H as [[]|H]. exact H.
Qed.

(** No entry of the answer is named after an excluded language. *)
Lemma languages_handler_excludes (repositories : list GithubRepository)
    (s : LanguageStat) :
  In s (languages_handler repositories) ->
  name s <> "HTML" /\ name s <> "CSS" /\ name s <> "Jupyter Notebook".
Proof.
  intros H. apply languages_handler_names in H.
  apply in_map_iff in H as (l & Hname & H).
  apply languages_of_In in H as (r & _ & _ & _ & Hex).
  assert (Hkey : isExcludedLanguage (Some (name s)) = false).
  { rewrite <- Hname. destruct l; [exact Hex | reflexivity]. }
  cbn [isExcludedLanguage] in Hkey.
  apply orb_false_elim in Hkey as [Hkey Hj].
  apply orb_false_elim in Hkey as [Hh Hc].
  repeat split; intros Heq; rewrite Heq in *; discriminate.
Qed.

(** When no counted language is named like an inherited property, the
    answer is sorted. *)
Lemma languages_handler_sorted (repositories : list GithubRepository) :
  Forall (fun r => inherited (property_key (language r)) = false) repositories ->
  non_increasing (languages_handler repositories).
Proof.
  intros Hrepos. unfold languages_handler.
  set (languages := languages_of repositories).
  assert (Hlang : Forall (fun l => inherited (property_key l) = false) languages).
  { apply List.Forall_forall. intros l Hl.
    apply languages_of_In in Hl as (r & Hr & <- & _).
    rewrite List.Forall_forall in Hrepos. apply (Hrepos _ Hr). }
  pose proof (fold_numbers (List.length languages) languages [] Hlang
                (List.Forall_nil _)) as Hnum.
  apply sort_sorted, List.Forall_forall. intros s Hs.
  apply in_map_iff in Hs as (k & <- & Hk).
  apply entry_number; [exact Hnum | apply keys_In, Hk].
Qed.

(** C8: a fork counts for nothing in either handler: taking it out of the
    upstream list changes neither the number of stars nor the language
    statistics. *)
Theorem forks_do_not_count (before after : list GithubRepository)
    (repository : GithubRepository) (Hfork : fork repository = true) :
  stars_handler (before ++ repository :: after) = stars_handler (before ++ after) /\
  languages_handler (before ++ repository :: after)
  = languages_handler (before ++ after).
Proof.
  split.
  - unfold stars_handler. rewrite !fold_left_app. cbn [fold_left].
    rewrite Hfork. reflexivity.
  - assert (Hlang : languages_of (before ++ repository :: after)
                    = languages_of (before ++ after)).
    { unfold languages_of. rewrite !List.filter_app. cbn [List.filter].
      rewrite Hfork. reflexivity. }
    unfold languages_handler. rewrite Hlang. reflexivity.
Qed.

Lemma forks_do_not_count_witness :
  stars_handler ([Demo.repo false "Go" 3] ++ Demo.repo true "Rust" 5
                   :: [Demo.repo false "C" 1])
  = stars_handler ([Demo.repo false "Go" 3] ++ [Demo.repo false "C" 1]) /\
  languages_handler ([Demo.repo false "Go" 3] ++ Demo.repo true "Rust" 5
                       :: [Demo.repo false "C" 1])
  = languages_handler ([Demo.repo false "Go" 3] ++ [Demo.repo false "C" 1]).
Proof.
  apply (forks_do_not_count [Demo.repo false "Go" 3] [Demo.repo false "C" 1]
           (Demo.repo true "Rust" 5)).
  reflexivity.
Defined.

Example stars_skip_forks :
  stars_handler [Demo.repo false "Go" 3; Demo.repo true "Rust" 5;
                 Demo.repo false "C" 1] = 4%Z.
Proof. reflexivity. Qed.

(** C9 at an upstream list with a repository whose language is named
    [constructor]: [accumulator["constructor"]] is the inherited function,
    not [undefined], so [+=] stores a text instead of a count; the
    comparator yields [NaN] against it and the answer keeps 25 in front of
    50.  No reordering of these three entries is sorted either. *)
Theorem inherited_name_breaks_sorting :
  languages_handler
    [Demo.repo false "C" 0; Demo.repo false "constructor" 0;
     Demo.repo false "Go" 0; Demo.repo false "Go" 0]
  = [{| name := "C"; persentase := PNum (100 # 4) |};
     {| name := "constructor"; persentase := PText "constructor" [100 # 4] |};
     {| name := "Go"; persentase := PNum (800 # 16) |}] /\
  ~ non_increasing
      (languages_handler
         [Demo.repo false "C" 0; Demo.repo false "constructor" 0;
          Demo.repo false "Go" 0; Demo.repo false "Go" 0]) /\
  forall l,
    Permutation l
      (languages_handler
         [Demo.repo false "C" 0; Demo.repo false "constructor" 0;
          Demo.repo false "Go" 0; Demo.repo false "Go" 0]) ->
    ~ non_increasing l.
Proof.
  assert (Heval : languages_handler
            [Demo.repo false "C" 0; Demo.repo false "constructor" 0;
             Demo.repo false "Go" 0; Demo.repo false "Go" 0]
          = [{| name := "C"; persentase := PNum (100 # 4) |};
             {| name := "constructor";
                persentase := PText "constructor" [100 # 4] |};
             {| name := "Go"; persentase := PNum (800 # 16) |}])
    by (vm_compute; reflexivity).
  assert (Hperm : forall l,
            Permutation l
              [{| name := "C"; persentase := PNum (100 # 4) |};
               {| name := "constructor";
                  persentase := PText "constructor" [100 # 4] |};
               {| name := "Go"; persentase := PNum (800 # 16) |}] ->
            ~ non_increasing l).
  { intros l Hl Hsorted.
    apply non_increasing_numbers in Hsorted;
      [|rewrite (Permutation_length Hl); cbn; lia].
    apply (Permutation_Forall Hl) in Hsorted.
    inversion Hsorted as [|? ? _ Htail]; subst.
    inversion Htail as [|? ? [x Hx] _]; subst. discriminate Hx. }
  rewrite Heval. split; [reflexivity|]. split; [|exact Hperm].
  apply Hperm. reflexivity.
Qed.

Example languages_of_a_usual_list :
  List.map name
    (languages_handler
       [Demo.repo false "C" 1; Demo.repo false "Go" 2; Demo.repo true "Rust" 9;
        Demo.repo false "HTML" 0; Demo.repo false "Go" 4])
  = ["Go"; "C"].
Proof. reflexivity. Qed.

End GithubFacts.

(** ** Slugs and routes, continued *)

Module RouteFacts.
Import JsString JsStringFacts Content ResultFacts Vocabulary.

Lemma prefix_append (p s : string) : String.prefix p (p ++ s)%string = true.
Proof.
  induction p as [|a p IH]; [destruct s; reflexivity|].
  rewrite append_String. cbn [String.prefix].
  destruct (ascii_dec a a); [exact IH | congruence].
Qed.

Lemma prefix_drop (p s : string) :
  String.prefix p s = true -> s = (p ++ drop (String.length p) s)%string.
Proof.
  revert s; induction p as [|a p IH]; intros s H; [reflexivity|].
  destruct s as [|b s]; [discriminate H|].
  cbn [String.prefix] in H. destruct (ascii_dec a b) as [->|]; [|discriminate H].
  rewrite append_String. cbn [String.length drop]. f_equal. apply IH, H.
Qed.

(** [replace] cuts the leftmost occurrence of the pattern. *)
Lemma replace_leftmost (p r s : string) :
  includes p s = true ->
  exists pre post,
    s = (pre ++ p ++ post)%string /\
    replace p r s = (pre ++ r ++ post)%string /\
    forall pre' post',
      s = (pre' ++ p ++ post')%string -> String.length pre <= String.length pre'.
Proof.
  induction s as [|c s IH]; cbn [includes replace]; intros H.
  - destruct (String.prefix p "") eqn:Hpre; [|discriminate H].
    exists "", (drop (String.length p) ""). rewrite !append_empty.
    split; [apply prefix_drop, Hpre|]. split; [reflexivity|].
    intros; cbn; lia.
  - destruct (String.prefix p (String c s)) eqn:Hpre.
    + exists "", (drop (String.length p) (String c s)). rewrite !append_empty.
      split; [apply prefix_drop, Hpre|]. split; [reflexivity|].
      intros; cbn; lia.
    + destruct (IH H) as (pre & post & Hs & Hr & Hmin).
      exists (String c pre), post. rewrite !append_String.
      split; [congruence|]. split; [congruence|].
      intros pre' post' Hdec. destruct pre' as [|c' pre'].
      * rewrite append_empty in Hdec. rewrite Hdec, prefix_append in Hpre.
        discriminate Hpre.
      * rewrite append_String in Hdec. injection Hdec as _ Hdec.
        specialize (Hmin pre' post' Hdec). cbn [String.length]. lia.
Qed.

Lemma slugOf_well_named_inj (f g : string) :
  well_named f -> well_named g -> slugOf f = slugOf g -> f = g.
Proof.
  intros (b & -> & Hb) (b' & -> & Hb').
  rewrite !SlugFacts.slugOf_extension by assumption. intros ->; reflexivity.
Qed.

Lemma NoDup_map_on {A B} (f : A -> B) (l : list A) :
  (forall x y, In x l -> In y l -> f x = f y -> x = y) ->
  List.NoDup l -> List.NoDup (List.map f l).
Proof.
  induction l as [|a l IH]; intros Hinj Hnd; [constructor|].
  apply List.NoDup_cons_iff in Hnd as [Ha Hl]. cbn [List.map].
  apply List.NoDup_cons_iff. split.
  - intros Hin. apply in_map_iff in Hin as (y & Hy & Hin).
    assert (y = a) by (apply Hinj; [right; assumption | left; reflexivity | assumption]).
    subst; contradiction.
  - apply IH; [|assumption]. intros x y Hx Hy. apply Hinj; right; assumption.
Qed.

Lemma index_entry_slug (E : Env) (filename : string) (m : ContentMetadata) :
  index_entry E filename = Ok m -> slug m = slugOf filename.
Proof.
  unfold index_entry.
  destruct (readFileSync E _) as [rawMarkdown|e]; [|discriminate].
  cbn [mbind result_mbind bind].
  destruct (grayMatter E rawMarkdown) as [[data content]|e]; [|discriminate].
  cbn [mbind result_mbind bind].
  destruct (countReadingTime E content) as [rt|e]; [|discriminate].
  intros [= <-]. reflexivity.
Qed.

(** The slugs of what the index loader returns are those of the directory
    listing, entry by entry. *)
Lemma index_slugs (E : Env) (filenames : list string) (data : list ContentMetadata) :
  mapM (index_entry E) filenames = Ok data ->
  List.map slug data = List.map slugOf filenames.
Proof.
  intros H. apply mapM_returns in H.
  induction H as [|f m filenames data Hf _ IH]; [reflexivity|].
  cbn [List.map]. f_equal; [|exact IH].
  exact (index_entry_slug E f m Hf).
Qed.



(** X2: when a file name contains [".md"], its slug is the name with the
    leftmost [".md"] cut out, wherever it stands, and nothing else changed. *)
Theorem slug_cuts_leftmost_extension (filename : string)
    (Hmd : includes ".md" filename = true) :
  exists pre post,
    filename = (pre ++ ".md" ++ post)%string /\
    slugOf filename = (pre ++ post)%string /\
    forall pre' post',
      filename = (pre' ++ ".md" ++ post')%string ->
      String.length pre <= String.length pre'.
Proof.
  destruct (replace_leftmost ".md" "" filename Hmd) as (pre & post & Hf & Hr & Hmin).
  exists pre, post. split; [exact Hf|]. split; [|exact Hmin].
  unfold slugOf. rewrite Hr, append_empty. reflexivity.
Qed.

Lemma slug_cuts_leftmost_extension_witness :
  exists pre post,
    "a.mdb.md" = (pre ++ ".md" ++ post)%string /\
    slugOf "a.mdb.md" = (pre ++ post)%string /\
    forall pre' post',
      "a.mdb.md" = (pre' ++ ".md" ++ post')%string ->
      String.length pre <= String.length pre'.
Proof. apply (slug_cuts_leftmost_extension "a.mdb.md"). reflexivity. Defined.

(** X3: when the index loader returns, it returns one metadata per entry
    of the directory listing, in the order of the listing, each the result
    of loading that entry; the keys of the cards are the slugs that
    [getStaticPaths] announces, in the same order. *)
Theorem index_lists_every_file (E : Env) (filenames : list string)
    (data : list ContentMetadata)
    (Hdir : readdirSync E (contentDir E) = Ok filenames)
    (Hdata : index_getStaticProps E = Ok data) :
  Forall2 (fun filename m => index_entry E filename = Ok m) filenames data /\
  List.length data = List.length filenames /\
  Pages.card_keys data = List.map slugOf filenames /\
  getStaticPaths E = Ok (Pages.card_keys data).
Proof.
  unfold index_getStaticProps in Hdata. rewrite (bind_ok _ _ _ Hdir) in Hdata.
  pose proof (mapM_returns _ _ _ Hdata) as Hall.
  pose proof (index_slugs E filenames data Hdata) as Hslugs.
  split; [exact Hall|]. split; [symmetry; apply (List.Forall2_length Hall)|].
  split; [exact Hslugs|].
  unfold getStaticPaths, Pages.card_keys. rewrite (bind_ok _ _ _ Hdir), Hslugs.
  reflexivity.
Qed.

Lemma index_lists_every_file_witness :
  exists data,
    index_getStaticProps Samples.blog = Ok data /\
    Forall2 (fun filename m => index_entry Samples.blog filename = Ok m)
      ["adapter.md"; "typed.md"] data /\
    List.length data = 2 /\
    Pages.card_keys data = ["adapter"; "typed"] /\
    getStaticPaths Samples.blog = Ok (Pages.card_keys data).
Proof.
  eexists. split; [vm_compute; reflexivity|].
  apply (index_lists_every_file Samples.blog ["adapter.md"; "typed.md"]).
  - reflexivity.
  - vm_compute; reflexivity.
Defined.

End RouteFacts.

(** ** The slug derivation *)

Module DerivationFacts.
Import JsString JsStringFacts Content ResultFacts RouteFacts.

(** C4, amended: equal file names have equal slugs; deriving again leaves
    a slug unchanged exactly when the slug has no [".md"] in it, which is
    the case of every file named [base.md] with no [".md"] inside the base,
    whose slug is [base].  At both call sites, the index loader and
    [getStaticPaths], the slug is [filename.replace(".md", "")]: the file
    name itself when it has no [".md"], and otherwise the file name with
    one [".md"] taken out, the leftmost one. *)
Theorem slug_derivation (E : Env) (filename filename' : string) :
  (filename = filename' -> slugOf filename = slugOf filename') /\
  (slugOf (slugOf filename) = slugOf filename <->
   includes ".md" (slugOf filename) = false) /\
  (forall base,
      filename = (base ++ ".md")%string -> includes ".md" base = false ->
      slugOf filename = base /\ slugOf (slugOf filename) = slugOf filename) /\
  (includes ".md" filename = false -> slugOf filename = filename) /\
  (includes ".md" filename = true ->
   exists pre post,
     filename = (pre ++ ".md" ++ post)%string /\
     slugOf filename = (pre ++ post)%string /\
     forall pre' post',
       filename = (pre' ++ ".md" ++ post')%string ->
       String.length pre <= String.length pre') /\
  (forall m, index_entry E filename = Ok m -> Content.slug m = slugOf filename) /\
  (forall filenames,
      readdirSync E (contentDir E) = Ok filenames ->
      getStaticPaths E = Ok (List.map slugOf filenames)).
Proof.
  split; [intros ->; reflexivity|].
  split; [apply SlugFacts.slugOf_fixed_iff|]. split.
  - intros base -> Hbase.
    pose proof (SlugFacts.slugOf_extension base Hbase) as Hslug.
    split; [exact Hslug|]. rewrite Hslug.
    apply SlugFacts.slugOf_fixed_iff, Hbase.
  - split; [apply replace_absent|]. split.
    + intros Hmd.
      destruct (replace_leftmost ".md" "" filename Hmd)
        as (pre & post & Hf & Hr & Hmin).
      exists pre, post. split; [exact Hf|]. split; [|exact Hmin].
      unfold slugOf. rewrite Hr, append_empty. reflexivity.
    + split; [intros m; apply index_entry_slug|].
      intros filenames Hdir. unfold getStaticPaths.
      rewrite (bind_ok _ _ _ Hdir). reflexivity.
Qed.

Lemma slug_derivation_witness :
  slugOf "adapter.md" = "adapter" /\
  slugOf (slugOf "adapter.md") = slugOf "adapter.md" /\
  slugOf "README" = "README" /\
  (exists pre post,
     "a.mdb.md" = (pre ++ ".md" ++ post)%string /\
     slugOf "a.mdb.md" = (pre ++ post)%string /\
     forall pre' post',
       "a.mdb.md" = (pre' ++ ".md" ++ post')%string ->
       String.length pre <= String.length pre') /\
  getStaticPaths Demo.broken = Ok ["a"; "b"].
Proof.
  destruct (slug_derivation Demo.broken "adapter.md" "adapter.md")
    as (_ & _ & Hbase & _ & _ & _ & Hpaths).
  destruct (Hbase "adapter" eq_refl eq_refl) as [Hslug Hidem].
  split; [exact Hslug|]. split; [exact Hidem|]. split; [|split].
  - apply (slug_derivation Demo.broken "README" "README"). reflexivity.
  - apply (slug_derivation Demo.broken "a.mdb.md" "a.mdb.md"). reflexivity.
  - apply (Hpaths ["a.md"; "b.md"]). reflexivity.
Defined.

End DerivationFacts.

(** ** The loaders and the pages, continued *)

Module PageFacts.
Import JsString Content ResultFacts Vocabulary RouteFacts.

Lemma mapM_all_return {A B} (f : A -> result B) (l : list A) :
  Forall (fun x => returns (f x)) l -> returns (mapM f l).
Proof.
  induction 1 as [|x l [y Hy] _ [ys IH]]; [exists []; reflexivity|].
  exists (y :: ys). cbn [mapM]. rewrite Hy, IH. reflexivity.
Qed.

Lemma Forall2_returns {A B} (f : A -> result B) (l : list A) (ys : list B) :
  Forall2 (fun x y => f x = Ok y) l ys -> Forall (fun x => returns (f x)) l.
Proof. induction 1; constructor; [eexists; eassumption | assumption]. Qed.

(** X4: the index loader returns exactly when the directory can be listed
    and every entry of the listing loads; one entry that fails to load is
    the only way for a listed directory to fail. *)
Theorem index_returns_iff (E : Env) :
  returns (index_getStaticProps E) <->
  exists filenames,
    readdirSync E (contentDir E) = Ok filenames /\
    Forall (fun filename => returns (index_entry E filename)) filenames.
Proof.
  unfold index_getStaticProps. split.
  - intros [data Hdata].
    destruct (readdirSync E (contentDir E)) as [filenames|e]; [|discriminate Hdata].
    exists filenames. split; [reflexivity|].
    apply (Forall2_returns _ _ data), mapM_returns, Hdata.
  - intros (filenames & Hdir & Hall). rewrite (bind_ok _ _ _ Hdir).
    apply mapM_all_return, Hall.
Qed.

(** X5: whenever the post loader returns for a slug without [".md"] in it,
    the index loader, run on the file of that slug, returns the very
    metadata the post page shows. *)
Theorem post_page_has_index_card (E : Env) (slug : string) (pm : ParsedMarkdown)
    (Hclean : includes ".md" slug = false)
    (Hpm : post_getStaticProps E slug = Ok pm) :
  index_entry E (slug ++ ".md") = Ok (metadata pm).
Proof.
  revert Hpm. unfold index_entry, post_getStaticProps.
  destruct (readFileSync E _) as [rawMarkdown|e]; [|discriminate].
  cbn [mbind result_mbind bind].
  destruct (grayMatter E rawMarkdown) as [[data content]|e]; [|discriminate].
  cbn [mbind result_mbind bind].
  destruct (countReadingTime E content) as [rt|e]; [|discriminate].
  cbn [mbind result_mbind bind].
  destruct (makrdown2Html E content) as [html|e]; [|discriminate].
  cbn [mbind result_mbind bind mret result_mret].
  intros [= <-]. cbn [metadata].
  rewrite (SlugFacts.slugOf_extension slug Hclean). reflexivity.
Qed.

Lemma post_page_has_index_card_witness :
  exists pm,
    post_getStaticProps Samples.blog "typed" = Ok pm /\
    index_entry Samples.blog ("typed" ++ ".md") = Ok (metadata pm).
Proof.
  eexists. split; [vm_compute; reflexivity|].
  apply (post_page_has_index_card Samples.blog "typed").
  - reflexivity.
  - vm_compute; reflexivity.
Defined.

(** X6: in a directory of pairwise different file names, each of them
    [base.md] with no [".md"] inside the base, no two files share a slug:
    the announced routes are pairwise different, and so are the keys of the
    cards on the index page. *)
Theorem routes_are_distinct (E : Env) (filenames : list string)
    (Hdir : readdirSync E (contentDir E) = Ok filenames)
    (Hnames : Forall well_named filenames)
    (Hdistinct : List.NoDup filenames) :
  (exists slugs, getStaticPaths E = Ok slugs /\ List.NoDup slugs) /\
  forall data, index_getStaticProps E = Ok data -> List.NoDup (Pages.card_keys data).
Proof.
  assert (Hslugs : List.NoDup (List.map slugOf filenames)).
  { apply NoDup_map_on; [|exact Hdistinct].
    rewrite List.Forall_forall in Hnames.
    intros f g Hf Hg. apply slugOf_well_named_inj; auto. }
  split.
  - exists (List.map slugOf filenames). split; [|exact Hslugs].
    unfold getStaticPaths. rewrite (bind_ok _ _ _ Hdir). reflexivity.
  - intros data Hdata. unfold index_getStaticProps in Hdata.
    rewrite (bind_ok _ _ _ Hdir) in Hdata.
    unfold Pages.card_keys. rewrite (index_slugs E filenames data Hdata).
    exact Hslugs.
Qed.

Lemma routes_are_distinct_witness :
  (exists slugs, getStaticPaths Samples.blog = Ok slugs /\ List.NoDup slugs) /\
  forall data,
    index_getStaticProps Samples.blog = Ok data -> List.NoDup (Pages.card_keys data).
Proof.
  apply (routes_are_distinct Samples.blog ["adapter.md"; "typed.md"]).
  - reflexivity.
  - repeat constructor; [exists "adapter" | exists "typed"]; split; reflexivity.
  - repeat constructor; simpl; intuition discriminate.
Defined.

(** *** gray-matter's cache *)











(** X8: a body the renderer rejects breaks the post page only: the post
    loader throws the renderer's error although the metadata was complete,
    while the index loader, which never renders, still returns the card. *)
Theorem renderer_failure_spares_the_index (E : Env) (slug rawMarkdown content : string)
    (data : gmap string value) (rt : ReadTimeResults) (e : exn)
    (Hread : readFileSync E (path_join E (contentDir E) (slug ++ ".md"))
             = Ok rawMarkdown)
    (Hgm : grayMatter E rawMarkdown = Ok (data, content))
    (Hrt : countReadingTime E content = Ok rt)
    (Hhtml : makrdown2Html E content = Throw e) :
  post_getStaticProps E slug = Throw e /\
  returns (index_entry E (slug ++ ".md")).
Proof.
  split.
  - unfold post_getStaticProps.
    rewrite (bind_ok _ _ _ Hread), (bind_ok _ _ _ Hgm). cbn beta iota.
    rewrite (bind_ok _ _ _ Hrt). cbn zeta. apply bind_throw, Hhtml.
  - eexists. apply (ContentFacts.index_entry_value E _ _ _ _ _ Hread Hgm Hrt).
Qed.

Lemma renderer_failure_spares_the_index_witness :
  post_getStaticProps Samples.unrenderable "adapter" = Throw (Error "cannot compile") /\
  returns (index_entry Samples.unrenderable ("adapter" ++ ".md")).
Proof.
  apply (renderer_failure_spares_the_index Samples.unrenderable "adapter"
           Demo.plain_md "hello" (<["title" := VStr "Adapter"]> ∅)
           {| text := "1 min read" |}); reflexivity.
Defined.

(** X9: the post page links the KaTeX stylesheet exactly when the
    [useLatex] of the front-matter is truthy: never for a post without the
    key, always for a non-empty text, whatever it says. *)
Theorem katex_link_follows_front_matter (E : Env) (slug rawMarkdown content : string)
    (data : gmap string value) (pm : ParsedMarkdown)
    (Hread : readFileSync E (path_join E (contentDir E) (slug ++ ".md"))
             = Ok rawMarkdown)
    (Hgm : grayMatter E rawMarkdown = Ok (data, content))
    (Hpm : post_getStaticProps E slug = Ok pm) :
  Pages.links_katex (metadata pm) = Pages.truthy (data !! "useLatex") /\
  (data !! "useLatex" = None -> Pages.links_katex (metadata pm) = false) /\
  (forall s, data !! "useLatex" = Some (VStr s) -> s <> "" ->
             Pages.links_katex (metadata pm) = true).
Proof.
  assert (Hlink : Pages.links_katex (metadata pm) = Pages.truthy (data !! "useLatex")).
  { revert Hpm. unfold post_getStaticProps.
    rewrite (bind_ok _ _ _ Hread), (bind_ok _ _ _ Hgm). cbn beta iota.
    destruct (countReadingTime E content) as [rt|e']; [|discriminate].
    cbn [mbind result_mbind bind].
    destruct (makrdown2Html E content) as [html|e']; [|discriminate].
    intros [= <-]. reflexivity. }
  split; [exact Hlink|]. rewrite Hlink. split.
  - intros ->. reflexivity.
  - intros s -> Hs. cbn [Pages.truthy].
    destruct (String.eqb_spec s ""); [contradiction | reflexivity].
Qed.

Lemma katex_link_follows_front_matter_witness :
  exists pm,
    post_getStaticProps Samples.blog "typed" = Ok pm /\
    Pages.links_katex (metadata pm) = true.
Proof.
  eexists. split; [vm_compute; reflexivity|].
  refine (proj2 (proj2 (katex_link_follows_front_matter Samples.blog "typed"
                          Demo.typed_md "hello" Demo.typed_data _ _ _ _))
            "maybe" _ _).
  - reflexivity.
  - reflexivity.
  - vm_compute; reflexivity.
  - reflexivity.
  - discriminate.
Defined.

End PageFacts.

(** ** The statistics handlers, continued *)

Module StatisticsFacts.
Import JsObject JsObjectFacts Github GithubFacts Vocabulary.

(** *** [Object.keys] lists every own key once *)

Lemma insert_index_perm (x : N * string) (l : list (N * string)) :
  Permutation (insert_index x l) (x :: l).
Proof.
  induction l as [|y l IH]; cbn [insert_index]; [reflexivity|].
  destruct (fst x <=? fst y)%N; [reflexivity|].
  rewrite IH. apply perm_swap.
Qed.

Lemma split_keys_perm (ks : list string) :
  Permutation (List.map snd (fst (split_keys ks)) ++ snd (split_keys ks)) ks.
Proof.
  induction ks as [|k ks IH]; cbn [split_keys]; [reflexivity|].
  destruct (split_keys ks) as [idx others]. cbn [fst snd] in IH.
  destruct (array_index k) as [n|]; cbn [fst snd].
  - rewrite (Permutation_map snd (insert_index_perm (n, k) idx)).
    cbn [List.map snd app]. constructor. exact IH.
  - rewrite <- Permutation_middle. constructor. exact IH.
Qed.

Lemma keys_perm (o : obj) : Permutation (keys o) (List.map fst o).
Proof.
  unfold keys. pose proof (split_keys_perm (List.map fst o)) as H.
  destruct (split_keys (List.map fst o)); exact H.
Qed.

(** *** Own keys of the accumulator *)

Lemma set_keeps_keys (o : obj) (key : string) (v : pval) (k : string) :
  In k (List.map fst o) -> In k (List.map fst (set o key v)).
Proof.
  unfold set. destruct (String.eqb key "__proto__"); [auto|].
  destruct (get_own o key).
  - rewrite update_keys; auto.
  - rewrite List.map_app, in_app_iff; auto.
Qed.

Lemma set_adds_key (o : obj) (key : string) (v : pval) :
  key <> "__proto__" -> In key (List.map fst (set o key v)).
Proof.
  intros Hne. unfold set.
  destruct (String.eqb_spec key "__proto__"); [contradiction|].
  destruct (get_own o key) eqn:Hown.
  - rewrite update_keys. apply get_own_In in Hown.
    apply in_map_iff. eexists; split; [|exact Hown]. reflexivity.
  - rewrite List.map_app, in_app_iff. right; left; reflexivity.
Qed.

Lemma set_NoDup (o : obj) (key : string) (v : pval) :
  List.NoDup (List.map fst o) -> List.NoDup (List.map fst (set o key v)).
Proof.
  intros Hnd. unfold set. destruct (String.eqb key "__proto__"); [exact Hnd|].
  destruct (get_own o key) eqn:Hown.
  - rewrite update_keys; exact Hnd.
  - rewrite List.map_app. cbn [List.map fst].
    apply Permutation_NoDup with (l := key :: List.map fst o).
    + rewrite <- Permutation_cons_append. reflexivity.
    + constructor; [apply get_own_None, Hown | exact Hnd].
Qed.

Lemma set_no_proto (o : obj) (key : string) (v : pval) :
  ~ In "__proto__" (List.map fst o) ->
  ~ In "__proto__" (List.map fst (set o key v)).
Proof.
  intros Hno Hin. destruct (String.eqb_spec key "__proto__") as [->|Hne].
  - unfold set in Hin. cbn in Hin. auto.
  - apply set_keys in Hin as [Hin|Heq]; [auto | congruence].
Qed.

Lemma count_language_inv (P : obj -> Prop) (total : nat) (accumulator : obj)
    (language : option string) :
  (forall o key v, P o -> P (set o key v)) ->
  P accumulator -> P (count_language total accumulator language).
Proof.
  intros Hset Hacc. unfold count_language.
  destruct (get accumulator (property_key language)); auto.
Qed.

Lemma fold_inv (P : obj -> Prop) (total : nat) (languages : list (option string))
    (accumulator : obj) :
  (forall o key v, P o -> P (set o key v)) ->
  P accumulator -> P (fold_left (count_language total) languages accumulator).
Proof.
  intros Hset. revert accumulator.
  induction languages as [|l languages IH]; intros accumulator Hacc; [exact Hacc|].
  cbn [fold_left]. apply IH, count_language_inv; assumption.
Qed.

Lemma count_language_adds_key (total : nat) (accumulator : obj)
    (language : option string) :
  property_key language <> "__proto__" ->
  In (property_key language)
     (List.map fst (count_language total accumulator language)).
Proof. intros Hne. unfold count_language. apply set_adds_key, Hne. Qed.

Lemma fold_adds_keys (total : nat) (languages : list (option string))
    (accumulator : obj) (k : string) :
  k <> "__proto__" ->
  In k (List.map property_key languages) ->
  In k (List.map fst (fold_left (count_language total) languages accumulator)).
Proof.
  intros Hne. revert accumulator.
  induction languages as [|l languages IH]; intros accumulator; [intros []|].
  cbn [List.map In fold_left]. intros [<-|Hin]; [|apply IH, Hin].
  apply (fold_inv (fun o => In (property_key l) (List.map fst o))).
  - intros o key v. apply set_keeps_keys.
  - apply count_language_adds_key, Hne.
Qed.

(** *** The names of the answer *)

Lemma entry_names (o : obj) (ks : list string) :
  List.map name (List.map (entry o) ks) = ks.
Proof.
  induction ks as [|k ks IH]; [reflexivity|]. cbn [List.map entry name].
  f_equal. exact IH.
Qed.

Lemma answer_names_perm (repositories : list GithubRepository) :
  Permutation
    (List.map name (languages_handler repositories))
    (List.map fst
       (fold_left (count_language (List.length (languages_of repositories)))
          (languages_of repositories) [])).
Proof.
  unfold languages_handler.
  rewrite <- (Permutation_map name (sort_perm _)), entry_names.
  apply keys_perm.
Qed.

(** X10: the language statistics name exactly the languages of the
    repositories that are neither forks nor in an excluded language, a
    missing language going under [null]; only the name [__proto__] is
    lost. *)
Theorem answer_names_counted_languages (repositories : list GithubRepository)
    (k : string) :
  In k (List.map name (languages_handler repositories)) <->
  k <> "__proto__" /\
  exists repository,
    In repository repositories /\
    fork repository = false /\
    isExcludedLanguage (language repository) = false /\
    property_key (language repository) = k.
Proof.
  pose proof (answer_names_perm repositories) as Hperm. split.
  - intros Hin. apply (Permutation_in _ Hperm) in Hin. split.
    + intros ->. revert Hin.
      apply (fold_inv (fun o => ~ In "__proto__" (List.map fst o))); [|intros []].
      intros o key v. apply set_no_proto.
    + apply fold_keys in Hin as [[]|Hin].
      apply in_map_iff in Hin as (l & <- & Hl).
      apply languages_of_In in Hl as (r & Hr & <- & Hf & He).
      exists r; auto.
  - intros (Hne & r & Hr & Hf & He & <-).
    apply (Permutation_in _ (Permutation_sym Hperm)).
    apply fold_adds_keys; [exact Hne|]. apply in_map. unfold languages_of.
    apply in_map, filter_In. split; [exact Hr|]. rewrite Hf, He. reflexivity.
Qed.

(** X11: no language is listed twice, whatever the upstream list. *)
Theorem answer_names_are_distinct (repositories : list GithubRepository) :
  List.NoDup (List.map name (languages_handler repositories)).
Proof.
  apply (Permutation_NoDup (Permutation_sym (answer_names_perm repositories))).
  apply (fold_inv (fun o => List.NoDup (List.map fst o))); [|constructor].
  intros o key v. apply set_NoDup.
Qed.

(** *** What the accumulator holds *)

Lemma get_own_update (o : obj) (key : string) (v : pval) (k : string) :
  get_own (update o key v) k
  = if String.eqb key k
    then match get_own o key with Some _ => Some v | None => None end
    else get_own o k.
Proof.
  induction o as [|[k0 w] o IH]; cbn [update get_own].
  - destruct (String.eqb key k); reflexivity.
  - destruct (String.eqb_spec k0 key) as [->|Hne]; cbn [get_own].
    + destruct (String.eqb_spec key k); reflexivity.
    + rewrite IH. destruct (String.eqb_spec k0 k) as [->|Hne'];
        destruct (String.eqb_spec key k); congruence.
Qed.

Lemma occurrences_snoc (k : string) (seen : list (option string))
    (l : option string) :
  occurrences k (seen ++ [l])
  = occurrences k seen + (if String.eqb (property_key l) k then 1 else 0).
Proof.
  unfold occurrences. rewrite List.filter_app, List.length_app. cbn [List.filter].
  destruct (String.eqb (property_key l) k); reflexivity.
Qed.

Lemma share_succ (n total : nat) : share (n + 1) total == share n total + step total.
Proof.
  unfold share. rewrite Nat2Z.inj_add, inject_Z_plus. cbn [Z.of_nat]. ring.
Qed.

Lemma tallies_step (total : nat) (seen : list (option string)) (o : obj)
    (l : option string) :
  inherited (property_key l) = false ->
  tallies total seen o ->
  tallies total (seen ++ [l]) (count_language total o l).
Proof.
  intros Hkey Htal. unfold count_language.
  set (key := property_key l) in *.
  fold (step total).
  pose proof (not_inherited_not_proto key Hkey) as Hproto.
  pose proof (Htal key) as Hk.
  destruct (get_own o key) as [v|] eqn:Hown.
  - destruct Hk as (a & -> & Ha).
    assert (Hget : get o key = Own (PNum a))
      by (unfold get; rewrite Hown; reflexivity).
    rewrite Hget. cbv beta iota zeta. rewrite Hget. cbn [plus].
    unfold set. rewrite Hproto, Hown.
    intros k. rewrite get_own_update, Hown, occurrences_snoc. fold key.
    destruct (String.eqb_spec key k) as [<-|Hne].
    + eexists. split; [reflexivity|]. rewrite share_succ, Ha. reflexivity.
    + rewrite Nat.add_0_r. apply Htal.
  - assert (Hget : get o key = Undefined)
      by (unfold get; rewrite Hown, Hkey; reflexivity).
    rewrite Hget. cbv beta iota zeta.
    assert (Hset : set o key (PNum 0) = o ++ [(key, PNum 0)])
      by (unfold set; rewrite Hproto, Hown; reflexivity).
    rewrite Hset.
    assert (Hown' : get_own (o ++ [(key, PNum 0)]) key = Some (PNum 0)).
    { rewrite get_own_app, Hown. cbn [get_own]. rewrite String.eqb_refl. reflexivity. }
    assert (Hget' : get (o ++ [(key, PNum 0)]) key = Own (PNum 0))
      by (unfold get; rewrite Hown'; reflexivity).
    rewrite Hget'. cbn [plus]. unfold set. rewrite Hproto, Hown'.
    intros k. rewrite get_own_update, Hown', occurrences_snoc. fold key.
    destruct (String.eqb_spec key k) as [<-|Hne].
    + eexists. split; [reflexivity|]. rewrite Hk, share_succ.
      unfold share. cbn [Z.of_nat]. ring.
    + rewrite Nat.add_0_r, get_own_app. specialize (Htal k).
      destruct (get_own o k); [exact Htal|]. cbn [get_own].
      destruct (String.eqb_spec key k); [contradiction | exact Htal].
Qed.

Lemma tallies_fold (total : nat) (languages seen : list (option string)) (o : obj) :
  Forall (fun l => inherited (property_key l) = false) languages ->
  tallies total seen o ->
  tallies total (seen ++ languages) (fold_left (count_language total) languages o).
Proof.
  intros H; revert seen o.
  induction H as [|l languages Hl _ IH]; intros seen o Htal.
  - rewrite List.app_nil_r. exact Htal.
  - cbn [fold_left]. replace (seen ++ l :: languages) with ((seen ++ [l]) ++ languages)
      by (rewrite <- List.app_assoc; reflexivity).
    apply IH, tallies_step; assumption.
Qed.

Lemma plain_languages (repositories : list GithubRepository) :
  Forall plain repositories ->
  Forall (fun l => inherited (property_key l) = false) (languages_of repositories).
Proof.
  intros Hrepos. apply List.Forall_forall. intros l Hl.
  apply languages_of_In in Hl as (r & Hr & <- & _).
  rewrite List.Forall_forall in Hrepos. apply (Hrepos _ Hr).
Qed.

Lemma plain_tallies (repositories : list GithubRepository) :
  Forall plain repositories ->
  tallies (List.length (languages_of repositories)) (languages_of repositories)
    (fold_left (count_language (List.length (languages_of repositories)))
       (languages_of repositories) []).
Proof.
  intros Hrepos.
  apply (tallies_fold _ (languages_of repositories) [] []);
    [apply plain_languages, Hrepos|]. intros k. reflexivity.
Qed.

(** Every entry of the answer is the tally of its language. *)
Lemma entry_share (repositories : list GithubRepository) (s : LanguageStat) :
  Forall plain repositories ->
  In s (languages_handler repositories) ->
  exists x,
    persentase s = PNum x /\
    x == share (occurrences (name s) (languages_of repositories))
           (List.length (languages_of repositories)).
Proof.
  intros Hrepos Hin. pose proof (plain_tallies repositories Hrepos) as Htal.
  unfold languages_handler in Hin.
  apply (Permutation_in _ (Permutation_sym (sort_perm _))) in Hin.
  apply in_map_iff in Hin as (k & <- & Hk). apply keys_In in Hk.
  cbn [name entry persentase]. unfold get. specialize (Htal k).
  destruct (get_own _ k) as [v|] eqn:Hown; [exact Htal|].
  apply get_own_None in Hown. contradiction.
Qed.

Lemma step_positive (total : nat) : (0 < total)%nat -> (0 < step total)%Q.
Proof.
  intros H. unfold step. apply Qlt_shift_div_l.
  - unfold Qlt; cbn. lia.
  - rewrite Qmult_0_l. reflexivity.
Qed.

(** *** Order *)

Lemma by_persentase_trans (a b c : LanguageStat) :
  by_persentase a b -> by_persentase b c -> by_persentase a c.
Proof.
  unfold by_persentase, pge.
  destruct (persentase a), (persentase b), (persentase c); try contradiction.
  intros H1 H2. exact (Qle_trans _ _ _ H2 H1).
Qed.

Lemma sorted_later (l front : list LanguageStat) (a : LanguageStat)
    (rest : list LanguageStat) :
  non_increasing l -> l = front ++ a :: rest -> Forall (by_persentase a) rest.
Proof.
  intros Hsorted ->. unfold non_increasing in Hsorted.
  apply Sorted_StronglySorted in Hsorted;
    [|intros x y z; apply by_persentase_trans].
  induction front as [|x front IH]; cbn [app] in Hsorted.
  - apply StronglySorted_inv in Hsorted as [_ H]. exact H.
  - apply StronglySorted_inv in Hsorted as [H _]. apply IH, H.
Qed.

(** X12: when no counted language is named like a property that objects
    inherit ([constructor], [toString], ...), every percentage of the answer
    is a number and the answer is sorted by non-increasing percentage. *)
Theorem plain_answer_is_sorted (repositories : list GithubRepository)
    (Hplain : Forall plain repositories) :
  Forall (fun s => is_number (persentase s)) (languages_handler repositories) /\
  non_increasing (languages_handler repositories).
Proof.
  split; [|apply languages_handler_sorted, Hplain].
  apply List.Forall_forall. intros s Hs.
  destruct (entry_share repositories s Hplain Hs) as (x & Hx & _).
  exists x; exact Hx.
Qed.

Lemma plain_answer_is_sorted_witness :
  Forall (fun s => is_number (persentase s))
    (languages_handler
       [Demo.repo false "Go" 3; Demo.repo false "C" 1; Demo.repo false "Go" 2]) /\
  non_increasing
    (languages_handler
       [Demo.repo false "Go" 3; Demo.repo false "C" 1; Demo.repo false "Go" 2]).
Proof.
  apply (plain_answer_is_sorted
           [Demo.repo false "Go" 3; Demo.repo false "C" 1; Demo.repo false "Go" 2]).
  repeat constructor.
Defined.

(** X13: under the same condition the answer lists the languages by
    number of repositories: a language listed before another one is the
    language of at least as many counted repositories. *)
Theorem more_repositories_come_first (repositories : list GithubRepository)
    (front middle back : list LanguageStat) (a b : LanguageStat)
    (Hplain : Forall plain repositories)
    (Hanswer : languages_handler repositories = front ++ a :: middle ++ b :: back) :
  occurrences (name b) (languages_of repositories)
  <= occurrences (name a) (languages_of repositories).
Proof.
  pose proof (languages_handler_sorted repositories Hplain) as Hsorted.
  pose proof (sorted_later _ front a (middle ++ b :: back) Hsorted Hanswer) as Hlater.
  rewrite List.Forall_forall in Hlater.
  assert (Hab : by_persentase a b)
    by (apply Hlater, in_app_iff; right; left; reflexivity).
  assert (Ha : In a (languages_handler repositories))
    by (rewrite Hanswer; apply in_app_iff; right; left; reflexivity).
  assert (Hb : In b (languages_handler repositories)).
  { rewrite Hanswer. apply in_app_iff; right; right.
    apply in_app_iff; right; left; reflexivity. }
  destruct (entry_share repositories a Hplain Ha) as (x & Hx & Hxs).
  destruct (entry_share repositories b Hplain Hb) as (y & Hy & Hys).
  unfold by_persentase in Hab. rewrite Hx, Hy in Hab. cbn [pge] in Hab.
  rewrite Hxs, Hys in Hab. unfold share in Hab.
  remember (List.length (languages_of repositories)) as total eqn:Htotal.
  destruct total as [|n].
  - symmetry in Htotal. apply List.length_zero_iff_nil in Htotal.
    rewrite Htotal. reflexivity.
  - apply Qmult_lt_0_le_reg_r in Hab; [|apply step_positive; lia].
    rewrite <- Zle_Qle in Hab. lia.
Qed.

Lemma more_repositories_come_first_witness :
  occurrences "C"
    (languages_of
       [Demo.repo false "Go" 3; Demo.repo false "C" 1; Demo.repo false "Go" 2])
  <= occurrences "Go"
       (languages_of
          [Demo.repo false "Go" 3; Demo.repo false "C" 1; Demo.repo false "Go" 2]).
Proof.
  apply (more_repositories_come_first
           [Demo.repo false "Go" 3; Demo.repo false "C" 1; Demo.repo false "Go" 2]
           [] [] []
           {| name := "Go"; persentase := PNum (600 # 9) |}
           {| name := "C"; persentase := PNum (100 # 3) |}).
  - repeat constructor.
  - vm_compute. reflexivity.
Defined.

(** *** Stars *)

Lemma stars_from (repositories : list GithubRepository) (z : Z) :
  fold_left
    (fun accumulator repository =>
       if fork repository then accumulator
       else (accumulator + stargazers_count repository)%Z)
    repositories z
  = (z + stars_handler repositories)%Z.
Proof.
  unfold stars_handler. revert z.
  induction repositories as [|r l IH]; intros z; cbn [fold_left]; [lia|].
  rewrite IH, (IH (if fork r then 0 else 0 + stargazers_count r)%Z).
  destruct (fork r); lia.
Qed.

Lemma stars_cons (r : GithubRepository) (l : list GithubRepository) :
  stars_handler (r :: l)
  = ((if fork r then 0 else stargazers_count r) + stars_handler l)%Z.
Proof.
  unfold stars_handler at 1. cbn [fold_left]. rewrite stars_from.
  destruct (fork r); lia.
Qed.

Lemma stars_app (l l' : list GithubRepository) :
  stars_handler (l ++ l') = (stars_handler l + stars_handler l')%Z.
Proof.
  induction l as [|r l IH]; [reflexivity|].
  cbn [app]. rewrite !stars_cons, IH. lia.
Qed.

Lemma stars_nonneg (l : list GithubRepository) :
  Forall (fun r => (0 <= stargazers_count r)%Z) l -> (0 <= stars_handler l)%Z.
Proof.
  induction 1 as [|r l Hr _ IH]; [reflexivity|].
  rewrite stars_cons. destruct (fork r); lia.
Qed.

(** *** What does not count *)

(** X14: a repository in one of the three excluded languages counts for
    nothing in the language statistics, fork or not: taking it out of the
    upstream list leaves the answer as it is.  Unlike a fork it does count
    its stars: as long as the star counts are whole numbers that add up
    within 2^53, the star count with it is the star count without it plus
    its own stars. *)
Theorem excluded_languages_do_not_count (before after : list GithubRepository)
    (repository : GithubRepository)
    (Hexcluded : isExcludedLanguage (language repository) = true) :
  languages_handler (before ++ repository :: after)
  = languages_handler (before ++ after) /\
  (fork repository = false ->
   exactly_summable (before ++ repository :: after) ->
   stars_handler (before ++ repository :: after)
   = (stars_handler (before ++ after) + stargazers_count repository)%Z /\
   (0 <= stars_handler (before ++ after) <= 2 ^ 53)%Z).
Proof.
  split.
  - assert (Hlang : languages_of (before ++ repository :: after)
                    = languages_of (before ++ after)).
    { unfold languages_of. rewrite !List.filter_app. cbn [List.filter].
      rewrite Hexcluded, andb_false_r. reflexivity. }
    unfold languages_handler. rewrite Hlang. reflexivity.
  - intros Hfork [Hpos Hbound].
    assert (Heq : stars_handler (before ++ repository :: after)
                  = (stars_handler (before ++ after) + stargazers_count repository)%Z)
      by (rewrite !stars_app, stars_cons, Hfork; lia).
    split; [exact Heq|].
    assert (Hr : (0 <= stargazers_count repository)%Z).
    { rewrite List.Forall_forall in Hpos. apply Hpos, in_app_iff.
      right; left; reflexivity. }
    split; [|lia]. apply stars_nonneg.
    apply List.Forall_app in Hpos as [Hb Ha]. apply List.Forall_app. split; [exact Hb|].
    inversion Ha; assumption.
Qed.

Lemma excluded_languages_do_not_count_witness :
  languages_handler ([Demo.repo false "Go" 3] ++ Demo.repo false "HTML" 7
                       :: [Demo.repo false "C" 1])
  = languages_handler ([Demo.repo false "Go" 3] ++ [Demo.repo false "C" 1]) /\
  stars_handler ([Demo.repo false "Go" 3] ++ Demo.repo false "HTML" 7
                   :: [Demo.repo false "C" 1])
  = (stars_handler ([Demo.repo false "Go" 3] ++ [Demo.repo false "C" 1]) + 7)%Z.
Proof.
  destruct (excluded_languages_do_not_count [Demo.repo false "Go" 3]
              [Demo.repo false "C" 1] (Demo.repo false "HTML" 7))
    as [Hlang Hstars].
  - reflexivity.
  - split; [exact Hlang|]. apply Hstars; [reflexivity|].
    split; [repeat constructor; cbn; lia | vm_compute; discriminate].
Defined.

(** X15: for star counts that are whole numbers adding up within 2^53,
    the star count does not depend on the order in which the upstream
    lists the repositories, and the count of two lists put together is the
    sum of their counts. *)
Theorem stars_do_not_depend_on_order (repositories repositories' : list GithubRepository)
    (Hperm : Permutation repositories repositories')
    (Hexact : exactly_summable repositories) :
  stars_handler repositories = stars_handler repositories' /\
  exactly_summable repositories' /\
  forall more,
    exactly_summable (repositories ++ more) ->
    stars_handler (repositories ++ more)
    = (stars_handler repositories' + stars_handler more)%Z /\
    (0 <= stars_handler more <= 2 ^ 53)%Z.
Proof.
  assert (Heq : stars_handler repositories = stars_handler repositories').
  { clear Hexact. induction Hperm as [|r l l' _ IH|r r' l|l l' l'' _ IH _ IH'].
    - reflexivity.
    - rewrite !stars_cons, IH. reflexivity.
    - rewrite !stars_cons. lia.
    - congruence. }
  destruct Hexact as [Hpos Hbound].
  split; [exact Heq|]. split.
  - split; [apply (Permutation_Forall Hperm), Hpos | rewrite <- Heq; exact Hbound].
  - intros more [Hpos' Hbound']. rewrite stars_app in *. rewrite <- Heq.
    split; [reflexivity|].
    apply List.Forall_app in Hpos' as [_ Hmore].
    pose proof (stars_nonneg _ Hmore). pose proof (stars_nonneg _ Hpos). lia.
Qed.

Lemma stars_do_not_depend_on_order_witness :
  stars_handler [Demo.repo false "Go" 3; Demo.repo true "Rust" 5; Demo.repo false "C" 1]
  = stars_handler [Demo.repo true "Rust" 5; Demo.repo false "C" 1; Demo.repo false "Go" 3] /\
  stars_handler
    ([Demo.repo false "Go" 3; Demo.repo true "Rust" 5; Demo.repo false "C" 1]
     ++ [Demo.repo false "Zig" 2])
  = (stars_handler
       [Demo.repo true "Rust" 5; Demo.repo false "C" 1; Demo.repo false "Go" 3]
     + stars_handler [Demo.repo false "Zig" 2])%Z.
Proof.
  destruct (stars_do_not_depend_on_order
              [Demo.repo false "Go" 3; Demo.repo true "Rust" 5; Demo.repo false "C" 1]
              [Demo.repo true "Rust" 5; Demo.repo false "C" 1; Demo.repo false "Go" 3])
    as (Heq & _ & Hmore).
  - apply (Permutation_cons_append
             [Demo.repo true "Rust" 5; Demo.repo false "C" 1] (Demo.repo false "Go" 3)).
  - split; [repeat constructor; cbn; lia | vm_compute; discriminate].
  - split; [exact Heq|]. apply (Hmore [Demo.repo false "Zig" 2]).
    split; [repeat constructor; cbn; lia | vm_compute; discriminate].
Defined.

(** X16: an upstream list in which every repository is a fork, the empty
    list included, gives zero stars and an empty language list: with
    nothing to count, the division by the total never runs. *)
Theorem nothing_to_count (repositories : list GithubRepository)
    (Hforks : Forall (fun repository => fork repository = true) repositories) :
  stars_handler repositories = 0%Z /\ languages_handler repositories = [].
Proof.
  split.
  - induction Hforks as [|r l Hr _ IH]; [reflexivity|].
    rewrite stars_cons, Hr, IH. reflexivity.
  - assert (Hlang : languages_of repositories = []).
    { unfold languages_of. induction Hforks as [|r l Hr _ IH]; [reflexivity|].
      cbn [List.filter]. rewrite Hr. exact IH. }
    unfold languages_handler. rewrite Hlang. reflexivity.
Qed.

Lemma nothing_to_count_witness :
  stars_handler [Demo.repo true "Rust" 5; Demo.repo true "Go" 2] = 0%Z /\
  languages_handler [Demo.repo true "Rust" 5; Demo.repo true "Go" 2] = [].
Proof.
  apply (nothing_to_count [Demo.repo true "Rust" 5; Demo.repo true "Go" 2]).
  repeat constructor.
Defined.

(** *** Percentages *)






End StatisticsFacts.

(** ** The statistics panel *)

Module PanelFacts.
Import Pages.

Lemma colors_distinct : List.NoDup colors.
Proof.
  unfold colors.
  repeat (apply List.NoDup_cons;
          [cbn [In]; intros H;
           repeat (destruct H as [H|H]; [discriminate H|]); exact H|]).
  constructor.
Qed.

(** X18: every row of the language panel gets a colour scheme of the
    palette, never [undefined]; the first eighteen rows get eighteen
    different ones, and from there on the palette repeats. *)
Theorem every_row_has_a_colour :
  (forall index, exists c, colorScheme index = Some c /\ In c colors) /\
  (forall i j, i < 18 -> j < 18 -> colorScheme i = colorScheme j -> i = j) /\
  (forall index, colorScheme (index + 18) = colorScheme index).
Proof.
  assert (Hlen : List.length colors = 18) by reflexivity.
  split; [|split].
  - intros index. unfold colorScheme. rewrite Hlen.
    destruct (nth_error colors (index mod 18)) as [c|] eqn:Hc.
    + exists c. split; [reflexivity|]. apply (nth_error_In _ _ Hc).
    + apply nth_error_None in Hc. rewrite Hlen in Hc.
      pose proof (Nat.mod_upper_bound index 18). lia.
  - intros i j Hi Hj. unfold colorScheme. rewrite Hlen, !Nat.mod_small by lia.
    apply (proj1 (List.NoDup_nth_error colors) colors_distinct). rewrite Hlen. exact Hi.
  - intros index. unfold colorScheme. rewrite Hlen.
    replace (index + 18) with (index + 1 * 18) by lia.
    rewrite Nat.Div0.mod_add. reflexivity.
Qed.

End PanelFacts.
